(** * Gradient descent for simple linear regression

    A shallow embedding of [learn_w_gradient_descent], the hand-written
    gradient-descent trainer of the notebook "Simple Linear Regression using
    Gradient Descent", together with the statements the specification makes
    about it.

    Arithmetic is idealised: a [float64] is either an exact real number or
    [NaN].  Rounding and overflow are not modelled.  [NaN] is kept because the
    code can produce it from finite data in exact arithmetic: [ndarray.mean]
    of an empty array is [nan].

    The loop body is a pure function of the arrays and the coefficients and
    may raise numpy's shape error.  The call itself runs in a world made of
    numpy's global random generator, of what has been printed, and of the
    array objects, so that its effects, its determinism and what it leaves of
    its arguments can be stated. *)

From Stdlib Require Import String Reals Lra Psatz ZArith Bool Arith Lia List.
From Stdlib Require Import Permutation.
Import ListNotations.

(** ** Scalars *)

Inductive float64 : Type :=
| Num (r : R)
| NaN.

Definition lift2 (op : R -> R -> R) (a b : float64) : float64 :=
  match a, b with
  | Num x, Num y => Num (op x y)
  | _, _ => NaN
  end.

Definition fadd : float64 -> float64 -> float64 := lift2 Rplus.
Definition fsub : float64 -> float64 -> float64 := lift2 Rminus.
Definition fmul : float64 -> float64 -> float64 := lift2 Rmult.

Definition fneg (a : float64) : float64 :=
  match a with
  | Num x => Num (- x)
  | NaN => NaN
  end.

Declare Scope float_scope.
Delimit Scope float_scope with float.
Bind Scope float_scope with float64.
Infix "+" := fadd : float_scope.
Infix "-" := fsub : float_scope.
Infix "*" := fmul : float_scope.
Notation "- x" := (fneg x) : float_scope.

(** ** Exceptions *)

Inductive exn : Type :=
| ValueError        (* numpy: "operands could not be broadcast together" *)
| InvalidArgument.  (* the error kind of the specification *)

Inductive result (A : Type) : Type :=
| Ok (a : A)
| Raise (e : exn).
Arguments Ok {A} a.
Arguments Raise {A} e.

Definition rbind {A B : Type} (r : result A) (k : A -> result B) : result B :=
  match r with
  | Ok a => k a
  | Raise e => Raise e
  end.

(** ** Arrays

    [xs] and [ys] are column vectors (shape [(n, 1)]); an array is modelled
    by the list of its entries. *)

Definition ndarray : Type := list float64.

(** [scalar + array] and [scalar * array]. *)
Definition scalar_add (c : float64) (a : ndarray) : ndarray :=
  map (fun x => (c + x)%float) a.

Definition scalar_mul (c : float64) (a : ndarray) : ndarray :=
  map (fun x => (c * x)%float) a.

(** Unary minus on an array. *)
Definition array_neg (a : ndarray) : ndarray := map fneg a.

Fixpoint zip_with (op : float64 -> float64 -> float64) (a b : ndarray) : ndarray :=
  match a, b with
  | x :: a', y :: b' => op x y :: zip_with op a' b'
  | _, _ => []
  end.

(** An elementwise binary operation on two column vectors.  numpy
    broadcasts: equal lengths combine entry by entry, an array of length one
    is stretched to the other's length, anything else raises [ValueError]. *)
Definition broadcast (op : float64 -> float64 -> float64) (a b : ndarray)
  : result ndarray :=
  if Nat.eqb (length a) (length b) then Ok (zip_with op a b)
  else match a, b with
       | [x], _ => Ok (map (fun y => op x y) b)
       | _, [y] => Ok (map (fun x => op x y) a)
       | _, _ => Raise ValueError
       end.

Definition array_sub : ndarray -> ndarray -> result ndarray := broadcast fsub.
Definition array_mul : ndarray -> ndarray -> result ndarray := broadcast fmul.

Definition array_sum (a : ndarray) : float64 := fold_right fadd (Num 0) a.

(** [a.mean()]: the sum over the number of entries; [nan] (with a warning, no
    exception) for an empty array. *)
Definition mean (a : ndarray) : float64 :=
  match a with
  | [] => NaN
  | _ :: _ =>
      match array_sum a with
      | Num s => Num (s / INR (length a))
      | NaN => NaN
      end
  end.

(** ** The loop body of [learn_w_gradient_descent]

    Steps 2A to 2C, line by line.  The two rebinding assignments
    [beta_0 -= ...] and [beta_1 -= ...] are kept in the order of the source,
    the second one seeing the rebound [beta_0]. *)
Definition loop_body (learning_rate : float64) (xs ys : ndarray)
  (beta : float64 * float64) : result (float64 * float64) :=
  let '(beta_0, beta_1) := beta in
  (* Step 2A *)
  let yhats := scalar_add beta_0 (scalar_mul beta_1 xs) in
  (* Step 2B *)
  rbind (array_sub ys yhats) (fun es =>
  (* Step 2C *)
  let d_beta_0 := array_neg es in
  rbind (array_mul (array_neg es) xs) (fun d_beta_1 =>
  let beta_0 := (beta_0 - learning_rate * mean d_beta_0)%float in
  let beta_1 := (beta_1 - learning_rate * mean d_beta_1)%float in
  Ok (beta_0, beta_1))).

(** ** Python values, the random generator, stdout and the heap *)

Inductive pyobject : Type :=
| PyNone
| PyInt (z : Z)
| PyFloat (f : float64)
| PySeq (items : list float64).   (* a sequence of floats *)

(** The state of numpy's module-level generator, abstracted to the tape of
    raw values it is going to deliver and the position reached on it. *)
Record RandomState : Type := mkRandomState {
  tape : nat -> Z;
  pos : nat
}.

(** A reference to an array object. *)
Definition ref : Type := nat.

(** Everything a call can observe or change outside its own locals: the
    global generator, what has been printed (format string and argument of
    each [print]), and the array objects, by reference.  The warnings numpy
    writes to stderr (the mean of an empty array, an overflow) are not kept:
    no statement below is about stderr. *)
Record World : Type := mkWorld {
  random_state : RandomState;
  stdout : list (string * pyobject);
  heap : list ndarray
}.

Definition M (A : Type) : Type := World -> result A * World.

Definition ret {A : Type} (a : A) : M A := fun w => (Ok a, w).

Definition bind {A B : Type} (m : M A) (k : A -> M B) : M B :=
  fun w =>
    match m w with
    | (Ok a, w') => k a w'
    | (Raise e, w') => (Raise e, w')
    end.

Declare Scope monad_scope.
Delimit Scope monad_scope with monad.
Notation "x <- m ;; k" := (bind m (fun x => k))
  (at level 61, m at next level, right associativity) : monad_scope.
Notation "' p <- m ;; k" := (bind m (fun x => match x with p => k end))
  (at level 61, p pattern, m at next level, right associativity) : monad_scope.
Notation "m ;; k" := (bind m (fun _ => k))
  (at level 61, right associativity) : monad_scope.

(** An exception of a pure computation propagates; the world is as it was
    when it was raised. *)
Definition lift {A : Type} (r : result A) : M A := fun w => (r, w).

(** One draw of [np.random.randint(low, high)]: an integer of
    [[low, high)], consuming one value of the tape. *)
Definition randint (low high : Z) : M Z :=
  fun w =>
    let st := random_state w in
    let raw := tape st (pos st) in
    (Ok (low + raw mod (high - low))%Z,
     mkWorld (mkRandomState (tape st) (S (pos st))) (stdout w) (heap w)).

(** [print(fmt.format(arg))]. *)
Definition print (fmt : string) (arg : pyobject) : M unit :=
  fun w => (Ok tt, mkWorld (random_state w) (stdout w ++ [(fmt, arg)]) (heap w)).

(** Reading the array a name is bound to. *)
Definition load (r : ref) : M ndarray :=
  fun w => (Ok (nth r (heap w) []), w).

(** [for _ in range(n): s = body(s)]. *)
Fixpoint for_range {S : Type} (n : nat) (body : S -> M S) (s : S) : M S :=
  match n with
  | O => ret s
  | Datatypes.S k => bind (body s) (fun s' => for_range k body s')
  end.

(** The integer drawn by [randint], as the operand of float arithmetic. *)
Definition to_float (z : Z) : float64 := Num (IZR z).

Definition newline : string := String (Ascii.ascii_of_nat 10) EmptyString.

(** ** The trainer *)

Definition num_iterations : nat := 5000.

Local Open Scope monad_scope.
Local Open Scope string_scope.

(** One pass of the loop inside the call: [xs] and [ys] are names bound to
    the caller's arrays and are read through the heap each time. *)
Definition iteration (learning_rate : float64) (xs ys : ref)
  (beta : float64 * float64) : M (float64 * float64) :=
  xv <- load xs ;;
  yv <- load ys ;;
  lift (loop_body learning_rate xv yv beta).

Definition learn_w_gradient_descent (xs ys : ref) : M pyobject :=
  let learning_rate := Num (1 / 10) in
  (* Step 1: [np.random.randint(1, 10, size=2)], two draws *)
  beta_0 <- randint 1 10 ;;
  beta_1 <- randint 1 10 ;;
  print "Initial gradient descent beta_0: {}" (PyInt beta_0) ;;
  print "Initial gradient descent beta_1: {}" (PyInt beta_1) ;;
  ' (beta_0, beta_1) <-
      for_range num_iterations (iteration learning_rate xs ys)
        (to_float beta_0, to_float beta_1) ;;
  print "Final gradient descent beta_0: {}" (PyFloat beta_0) ;;
  print ("Final gradient descent beta_1: {}" ++ newline) (PyFloat beta_1) ;;
  (* no [return]: the call evaluates to [None] *)
  ret PyNone.

Local Close Scope string_scope.

(** ** The data generator *)

(** Binding a fresh array object. *)
Definition alloc (a : ndarray) : M ref :=
  fun w => (Ok (length (heap w)),
            mkWorld (random_state w) (stdout w) (heap w ++ [a])).

Definition resolution : Z := 2 ^ 53.

(** One feature value, uniform over [[0, 1)]. *)
Definition random_sample : M float64 :=
  fun w =>
    let st := random_state w in
    let raw := tape st (pos st) in
    (Ok (Num (IZR (raw mod resolution) / IZR resolution)),
     mkWorld (mkRandomState (tape st) (S (pos st))) (stdout w) (heap w)).

Fixpoint random_samples (n : nat) : M ndarray :=
  match n with
  | O => ret []
  | S k => x <- random_sample ;; rest <- random_samples k ;; ret (x :: rest)
  end.

(** Modelled from the spec: [gen_simple_linear] lives in
    [datasets/general.py], which is not among the sources; only its call
    [xs, ys = gen_simple_linear(true_beta_0, true_beta_1, n_obs)] is.  Section
    4.1 of the specification: a non-positive observation count fails with
    [InvalidArgument]; otherwise each observation draws its feature value from
    the generator and its target is the exact linear combination with the true
    coefficients, no noise added; inputs and outputs are returned in the same
    order. *)
Definition gen_simple_linear (true_beta_0 true_beta_1 : float64) (n_obs : Z)
  : M (ref * ref) :=
  if (n_obs <=? 0)%Z then lift (Raise InvalidArgument)
  else
    features <- random_samples (Z.to_nat n_obs) ;;
    xs <- alloc features ;;
    ys <- alloc (scalar_add true_beta_0 (scalar_mul true_beta_1 features)) ;;
    ret (xs, ys).

Local Close Scope monad_scope.

(** ** Executions, seen from outside *)

(** [n] passes of a loop body that may raise. *)
Fixpoint iterate {S : Type} (n : nat) (step : S -> result S) (s : S) : result S :=
  match n with
  | O => Ok s
  | Datatypes.S k => rbind (step s) (iterate k step)
  end.

(** The states reached after each completed pass, in order; it stops short
    where a pass raises. *)
Fixpoint trajectory {S : Type} (n : nat) (step : S -> result S) (s : S) : list S :=
  match n with
  | O => []
  | Datatypes.S k =>
      match step s with
      | Ok s' => s' :: trajectory k step s'
      | Raise _ => []
      end
  end.

(** The coefficients the call starts from, given the world it is made in. *)
Definition initial_draw (w : World) : Z * Z :=
  let st := random_state w in
  ((1 + tape st (pos st) mod 9)%Z, (1 + tape st (S (pos st)) mod 9)%Z).

Definition initial_coefficients (w : World) : float64 * float64 :=
  (to_float (fst (initial_draw w)), to_float (snd (initial_draw w))).

(** The coefficient trajectory of a descent. *)
Definition descent_trajectory (learning_rate : float64) (n : nat)
  (xs ys : ndarray) (beta : float64 * float64) : list (float64 * float64) :=
  trajectory n (loop_body learning_rate xs ys) beta.

(** Shapes numpy can combine elementwise. *)
Definition broadcastable (n m : nat) : Prop := n = m \/ n = 1%nat \/ m = 1%nat.

(** ** The specification's formulas *)

(** The residuals [ys - (beta_0 + beta_1 * xs)], as the specification writes
    them. *)
Definition residuals (beta_0 beta_1 : float64) (xs ys : ndarray) : result ndarray :=
  array_sub ys (scalar_add beta_0 (scalar_mul beta_1 xs)).

(** [coefficient -= learning_rate * gradient]. *)
Definition descend (learning_rate coefficient gradient : float64) : float64 :=
  (coefficient - learning_rate * gradient)%float.

(** The gradient of the mean squared error at a coefficient vector: the
    negative mean residual for the intercept, the negative mean of residual
    times feature value for the feature coefficient. *)
Definition gradient_at (xs ys : ndarray) (beta : float64 * float64)
  : result (float64 * float64) :=
  rbind (residuals (fst beta) (snd beta) xs ys) (fun es =>
  rbind (array_mul es xs) (fun es_xs =>
  Ok ((- mean es)%float, (- mean es_xs)%float))).

(** An update in which the feature coefficient would see the intercept
    already updated; the code is compared against it. *)
Definition interleaved_body (learning_rate : float64) (xs ys : ndarray)
  (beta : float64 * float64) : result (float64 * float64) :=
  rbind (gradient_at xs ys beta) (fun g =>
  let beta_0 := descend learning_rate (fst beta) (fst g) in
  rbind (gradient_at xs ys (beta_0, snd beta)) (fun g' =>
  Ok (beta_0, descend learning_rate (snd beta) (snd g')))).

(** ** What a call leaves behind *)

Definition learning_rate_of_trainer : float64 := Num (1 / 10).

(** The arrays the names [xs] and [ys] are bound to in world [w]. *)
Definition contents (r : ref) (w : World) : ndarray := nth r (heap w) [].

(** The generator after [n] more draws. *)
Definition advance (n : nat) (st : RandomState) : RandomState :=
  mkRandomState (tape st) (n + pos st).

(** The two lines printed before the loop and the two printed after it. *)
Definition initial_lines (w : World) : list (string * pyobject) :=
  [("Initial gradient descent beta_0: {}"%string, PyInt (fst (initial_draw w)));
   ("Initial gradient descent beta_1: {}"%string, PyInt (snd (initial_draw w)))].

Definition final_lines (beta : float64 * float64) : list (string * pyobject) :=
  [("Final gradient descent beta_0: {}"%string, PyFloat (fst beta));
   (("Final gradient descent beta_1: {}" ++ newline)%string, PyFloat (snd beta))].

(** The coefficient trajectory of the call [learn_w_gradient_descent xs ys]
    made in world [w]. *)
Definition coefficient_trajectory (xs ys : ref) (w : World)
  : list (float64 * float64) :=
  descent_trajectory learning_rate_of_trainer num_iterations
    (contents xs w) (contents ys w) (initial_coefficients w).

(** The outcome of the loop of the call made in world [w]. *)
Definition loop_outcome (xs ys : ref) (w : World) : result (float64 * float64) :=
  iterate num_iterations
    (loop_body learning_rate_of_trainer (contents xs w) (contents ys w))
    (initial_coefficients w).

(** ** Sample worlds *)

Definition reals (l : list R) : ndarray := map Num l.

(** A world whose generator delivers [raw] at every draw, with nothing
    printed yet and the given arrays bound to references 0, 1, ... *)
Definition world_of (raw : Z) (arrays : list ndarray) : World :=
  mkWorld (mkRandomState (fun _ => raw) 0) [] arrays.

(** Five observations of [y = 6 + 2 x]. *)
Definition sample_world : World :=
  world_of 3 [reals [0; 1; 2; 3; 4]; reals [6; 8; 10; 12; 14]]%R.

(** Two observations of [y = 6 + 2 x] at the same input: the line
    [y = 4 + 4 x] fits them as well; the initial draw is [(4, 4)]. *)
Definition degenerate_world : World :=
  world_of 3 [reals [1; 1]; reals [8; 8]]%R.

(** Zero observations. *)
Definition empty_world : World := world_of 3 [[]; []].

(** Two inputs and three outputs. *)
Definition mismatched_world : World :=
  world_of 3 [reals [1; 2]; reals [1; 2; 3]]%R.

(** The sample data at other references, after earlier output, with the
    generator in the same state. *)
Definition sample_world_later : World :=
  mkWorld (mkRandomState (fun _ => 3%Z) 0)
    [("Actual beta_0: {}"%string, PyInt 6)]
    [[]; reals [0; 1; 2; 3; 4]; reals [6; 8; 10; 12; 14]]%R.

(** The call's arrays have shapes numpy can combine; equal lengths are the
    well-formed case. *)
Definition shapes_agree (xs ys : ref) (w : World) : Prop :=
  broadcastable (length (contents xs w)) (length (contents ys w)).

(** ** Noiseless data and its statistics *)

Local Open Scope R_scope.

(** The outputs of noiseless observations of [y = beta_0 + beta_1 x]. *)
Definition noiseless (beta_0 beta_1 : R) (xs : list R) : list R :=
  map (fun x => beta_0 + beta_1 * x) xs.

Definition sum_R (l : list R) : R := fold_right Rplus 0 l.

Definition mean_R (l : list R) : R := sum_R l / INR (length l).

Definition squares (l : list R) : list R := map (fun x => x * x) l.

Definition variance (xs : list R) : R :=
  mean_R (squares xs) - mean_R xs * mean_R xs.

(** The factor by which one iteration shrinks the squared distance to the
    true coefficients. *)
Definition contraction (lr : R) (xs : list R) : R :=
  1 - 2 * lr * variance xs / (1 + mean_R (squares xs)).

(** The squared distance between two coefficient vectors. *)
Definition distance2 (c0 c1 beta_0 beta_1 : R) : R :=
  (c0 - beta_0) * (c0 - beta_0) + (c1 - beta_1) * (c1 - beta_1).

(** The inputs take at least two distinct values. *)
Definition two_distinct (xs : list R) : Prop :=
  exists x x' : R, In x xs /\ In x' xs /\ x <> x'.

Local Close Scope R_scope.

(** ** The cost of [get_theano_graph] *)

(** [es ** 2], entry by entry. *)
Definition array_square (es : ndarray) : ndarray :=
  map (fun e => (e * e)%float) es.

(** Step 5 of [get_theano_graph]: [E = (0.5 * (es ** 2)).mean()], the
    aggregate cost of the errors [es]. *)
Definition E (es : ndarray) : float64 :=
  mean (scalar_mul (Num (1 / 2)) (array_square es)).

(** Steps 3 to 5: the cost of a coefficient vector on the data.  Steps 3 and
    4 are steps 2A and 2B of [learn_w_gradient_descent]. *)
Definition cost (xs ys : ndarray) (beta : float64 * float64) : result float64 :=
  let '(beta_0, beta_1) := beta in
  let yhats := scalar_add beta_0 (scalar_mul beta_1 xs) in
  rbind (array_sub ys yhats) (fun es => Ok (E es)).

(** ** Observations and the least-squares line *)

Local Open Scope R_scope.

(** Observations as pairs of an input and an output, noisy or not. *)
Definition inputs (obs : list (R * R)) : list R := map fst obs.
Definition outputs (obs : list (R * R)) : list R := map snd obs.

Definition mean_xy (obs : list (R * R)) : R :=
  mean_R (map (fun p => fst p * snd p) obs).

(** The line of ordinary least squares through the observations. *)
Definition ols_slope (obs : list (R * R)) : R :=
  (mean_xy obs - mean_R (inputs obs) * mean_R (outputs obs))
  / variance (inputs obs).

Definition ols_intercept (obs : list (R * R)) : R :=
  mean_R (outputs obs) - ols_slope obs * mean_R (inputs obs).

(** The cost as a function of real coefficients. *)
Definition cost_R (obs : list (R * R)) (b0 b1 : R) : R :=
  mean_R (map (fun p => 1 / 2 * ((snd p - (b0 + b1 * fst p))
                                 * (snd p - (b0 + b1 * fst p)))) obs).

(** The two values an iteration uses as gradients, on real observations. *)
Definition slope_0 (obs : list (R * R)) (b0 b1 : R) : R :=
  b0 + b1 * mean_R (inputs obs) - mean_R (outputs obs).

Definition slope_1 (obs : list (R * R)) (b0 b1 : R) : R :=
  b0 * mean_R (inputs obs) + b1 * mean_R (squares (inputs obs)) - mean_xy obs.

Local Close Scope R_scope.

(** The observations of [sample_world], as pairs. *)
Definition sample_observations : list (R * R) :=
  [(0, 6); (1, 8); (2, 10); (3, 12); (4, 14)]%R.

(** Observations off any line: the least-squares line is [y = 1/3 + x]. *)
Definition noisy_observations : list (R * R) :=
  [(0, 0); (1, 2); (2, 2)]%R.

(** Two observations with inputs centred on zero and far apart. *)
Definition centred_observations : list (R * R) := [(-5, 1); (5, 3)]%R.

(** The sample data with the third output missing. *)
Definition sample_world_with_nan : World :=
  world_of 3 [reals [0; 1; 2; 3; 4]%R;
              [Num 6; Num 8; NaN; Num 12; Num 14]].

(** * Properties *)

(** ** Array arithmetic *)

Section ArrayFacts.

Local Open Scope float_scope.

Lemma fneg_fadd (a b : float64) : - a + - b = - (a + b).
Proof.
  destruct a, b; simpl; try reflexivity.
  f_equal. ring.
Qed.

Lemma fneg_fmul (a b : float64) : - a * b = - (a * b).
Proof.
  destruct a, b; simpl; try reflexivity.
  f_equal. ring.
Qed.

Lemma array_sum_neg (a : ndarray) : array_sum (array_neg a) = - array_sum a.
Proof.
  unfold array_sum, array_neg.
  induction a as [|x a IH]; simpl.
  - f_equal. ring.
  - rewrite IH. apply fneg_fadd.
Qed.

Lemma mean_neg (a : ndarray) : mean (array_neg a) = - mean a.
Proof.
  destruct a as [|x a]; [reflexivity|].
  unfold mean. change (fneg x :: array_neg a) with (array_neg (x :: a)).
  rewrite array_sum_neg.
  unfold array_neg. rewrite length_map.
  destruct (array_sum (x :: a)) as [s|]; simpl; [|reflexivity].
  f_equal. unfold Rdiv. ring.
Qed.

Lemma zip_with_neg_l (a b : ndarray) :
  zip_with fmul (array_neg a) b = array_neg (zip_with fmul a b).
Proof.
  revert b. induction a as [|x a IH]; intros [|y b]; simpl; try reflexivity.
  rewrite IH, fneg_fmul. reflexivity.
Qed.

Lemma zip_with_length op (a b : ndarray) :
  length a = length b -> length (zip_with op a b) = length a.
Proof.
  revert b. induction a as [|x a IH]; intros [|y b] H; simpl in *;
    try reflexivity; try discriminate.
  f_equal. apply IH. congruence.
Qed.

(** Negating the left operand of an elementwise product negates the
    product, whatever the shapes. *)
Lemma array_mul_neg_l (a b : ndarray) :
  array_mul (array_neg a) b = rbind (array_mul a b) (fun p => Ok (array_neg p)).
Proof.
  unfold array_mul, broadcast, array_neg at 1. rewrite length_map.
  destruct (Nat.eqb (length a) (length b)); simpl.
  - rewrite zip_with_neg_l. reflexivity.
  - destruct a as [|x [|x' a]]; simpl.
    + destruct b as [|y [|y' b]]; reflexivity.
    + unfold array_neg. rewrite map_map.
      apply (f_equal Ok), map_ext. intros y. apply fneg_fmul.
    + destruct b as [|y [|y' b]]; try reflexivity.
      simpl. rewrite !fneg_fmul.
      unfold array_neg. rewrite !map_map.
      rewrite (map_ext _ _ (fun z => fneg_fmul z y)). reflexivity.
Qed.

Lemma broadcast_ok op (a b : ndarray) :
  broadcastable (length a) (length b) ->
  exists c, broadcast op a b = Ok c /\
            length c = if Nat.eqb (length a) 1 then length b else length a.
Proof.
  intros H. unfold broadcast.
  destruct (Nat.eqb_spec (length a) (length b)) as [E|NE].
  - eexists; split; [reflexivity|].
    rewrite zip_with_length by assumption.
    destruct (Nat.eqb_spec (length a) 1); congruence.
  - destruct H as [H|[H|H]]; [contradiction| |].
    + destruct a as [|x [|x' a]]; try discriminate.
      eexists; split; [reflexivity|]. apply length_map.
    + destruct b as [|y [|y' b]]; try discriminate.
      destruct a as [|x [|x' a]]; simpl in *; try lia.
      * eexists; split; reflexivity.
      * eexists; split; [reflexivity|]. simpl. rewrite length_map. reflexivity.
Qed.

Lemma broadcast_raise op (a b : ndarray) :
  ~ broadcastable (length a) (length b) ->
  broadcast op a b = Raise ValueError.
Proof.
  intros H. unfold broadcast, broadcastable in *.
  destruct (Nat.eqb_spec (length a) (length b)) as [E|NE]; [tauto|].
  destruct a as [|x [|x' a]]; simpl in *; try tauto.
  - destruct b as [|y [|y' b]]; simpl in *; try tauto.
  - destruct b as [|y [|y' b]]; simpl in *; try tauto.
Qed.

End ArrayFacts.

(** ** One iteration *)

Section OneIteration.

Local Open Scope float_scope.

Variable learning_rate : float64.
Variables xs ys : ndarray.

Lemma loop_body_descends (beta : float64 * float64) :
  loop_body learning_rate xs ys beta =
  rbind (gradient_at xs ys beta) (fun g =>
  Ok (descend learning_rate (fst beta) (fst g),
      descend learning_rate (snd beta) (snd g))).
Proof.
  destruct beta as [beta_0 beta_1].
  unfold loop_body, gradient_at, residuals, descend. simpl fst. simpl snd.
  destruct (array_sub ys (scalar_add beta_0 (scalar_mul beta_1 xs))) as [es|e];
    simpl; [|reflexivity].
  rewrite array_mul_neg_l.
  destruct (array_mul es xs) as [es_xs|e]; simpl; [|reflexivity].
  rewrite !mean_neg. reflexivity.
Qed.

(** C1.  In an iteration started at [(beta_0, beta_1)], the gradient used for
    the intercept is the negative mean of the residuals
    [ys - (beta_0 + beta_1 * xs)], the gradient used for the feature
    coefficient is the negative mean of residual times feature value, and each
    coefficient becomes [coefficient - learning_rate * gradient]. *)
Theorem loop_body_gradients (beta_0 beta_1 : float64) :
  loop_body learning_rate xs ys (beta_0, beta_1) =
  rbind (residuals beta_0 beta_1 xs ys) (fun es =>
  rbind (array_mul es xs) (fun es_xs =>
  let gradient_0 := - mean es in
  let gradient_1 := - mean es_xs in
  Ok (descend learning_rate beta_0 gradient_0,
      descend learning_rate beta_1 gradient_1))).
Proof.
  rewrite loop_body_descends. unfold gradient_at. simpl fst. simpl snd.
  destruct (residuals beta_0 beta_1 xs ys) as [es|e]; simpl; [|reflexivity].
  destruct (array_mul es xs) as [es_xs|e]; reflexivity.
Qed.

(** C2.  Both coefficients of an iteration are updated with the gradient
    taken at the coefficient vector the iteration started from: the update of
    [beta_1] does not see the new [beta_0], nor the other way round. *)
Theorem loop_body_simultaneous (beta_0 beta_1 : float64) :
  loop_body learning_rate xs ys (beta_0, beta_1) =
  rbind (gradient_at xs ys (beta_0, beta_1)) (fun g =>
  Ok (descend learning_rate beta_0 (fst g),
      descend learning_rate beta_1 (snd g))).
Proof. apply loop_body_descends. Qed.

End OneIteration.

(** One pass on the sample data [y = 6 + 2 x], [x = 0, ..., 4], from
    [(4, 4)]: the residuals are [2, 0, -2, -4, -6], the gradients 2 and 8. *)
Example loop_body_sample :
  loop_body (Num (1 / 10)) (reals [0; 1; 2; 3; 4]%R)
    (reals [6; 8; 10; 12; 14]%R) (Num 4, Num 4)
  = Ok (Num (38 / 10), Num (32 / 10)).
Proof.
  unfold loop_body, reals. cbn.
  apply (f_equal Ok). apply f_equal2; apply (f_equal Num); lra.
Qed.

(** ** Shapes and exceptions *)

Lemma broadcastable_dec (n m : nat) : {broadcastable n m} + {~ broadcastable n m}.
Proof.
  unfold broadcastable.
  destruct (Nat.eq_dec n m); [left; tauto|].
  destruct (Nat.eq_dec n 1); [left; tauto|].
  destruct (Nat.eq_dec m 1); [left; tauto|].
  right. tauto.
Qed.

Lemma loop_body_ok lr (xs ys : ndarray) (beta : float64 * float64) :
  broadcastable (length xs) (length ys) ->
  exists beta', loop_body lr xs ys beta = Ok beta'.
Proof.
  intros H. destruct beta as [b0 b1]. unfold loop_body.
  destruct (broadcast_ok fsub ys (scalar_add b0 (scalar_mul b1 xs)))
    as (es & Hes & Hlen).
  { unfold scalar_add, scalar_mul. rewrite !length_map.
    unfold broadcastable in *. intuition congruence. }
  unfold array_sub. rewrite Hes. simpl.
  unfold scalar_add, scalar_mul in Hlen. rewrite !length_map in Hlen.
  destruct (broadcast_ok fmul (array_neg es) xs) as (d & Hd & _).
  { unfold array_neg. rewrite length_map, Hlen.
    unfold broadcastable in *.
    destruct (Nat.eqb_spec (length ys) 1); lia. }
  unfold array_mul. rewrite Hd. simpl. eexists. reflexivity.
Qed.

Lemma loop_body_raise lr (xs ys : ndarray) (beta : float64 * float64) :
  ~ broadcastable (length xs) (length ys) ->
  loop_body lr xs ys beta = Raise ValueError.
Proof.
  intros H. destruct beta as [b0 b1]. unfold loop_body, array_sub.
  rewrite broadcast_raise; [reflexivity|].
  unfold scalar_add, scalar_mul. rewrite !length_map.
  unfold broadcastable in *. intros [E|[E|E]]; apply H; auto.
Qed.

(** ** Loops *)

Section Loops.

Context {S : Type}.
Variable step : S -> result S.

Lemma iterate_total (n : nat) (s : S) :
  (forall s0, exists s1, step s0 = Ok s1) ->
  exists s', iterate n step s = Ok s'.
Proof.
  intros Hstep. revert s. induction n as [|n IH]; intros s; simpl.
  - eexists. reflexivity.
  - destruct (Hstep s) as [s1 ->]. simpl. apply IH.
Qed.

Lemma iterate_raise (n : nat) (s : S) (e : exn) :
  (forall s0, step s0 = Raise e) ->
  iterate (Datatypes.S n) step s = Raise e.
Proof. intros Hstep. simpl. rewrite Hstep. reflexivity. Qed.

Lemma last_cons_default (t : S) (ts : list S) (d d' : S) :
  last (t :: ts) d = last (t :: ts) d'.
Proof.
  revert t. induction ts as [|u ts IH]; intros t; [reflexivity|].
  change (last (u :: ts) d = last (u :: ts) d'). apply IH.
Qed.

(** The loop ends normally exactly when every pass was completed, and its
    final state is then the last state of the trajectory. *)
Lemma iterate_trajectory (n : nat) (s : S) :
  match iterate n step s with
  | Ok s' => length (trajectory n step s) = n /\ last (trajectory n step s) s = s'
  | Raise _ => (length (trajectory n step s) < n)%nat
  end.
Proof.
  revert s. induction n as [|n IH]; intros s; simpl.
  - split; reflexivity.
  - destruct (step s) as [s1|e]; simpl; [|lia].
    specialize (IH s1).
    destruct (iterate n step s1) as [s'|e].
    + destruct IH as [Hlen Hlast]. split; [congruence|].
      destruct (trajectory n step s1) as [|t ts] eqn:Ht.
      * simpl in *. exact Hlast.
      * rewrite <- Hlast. change (last (t :: ts) s = last (t :: ts) s1).
        apply last_cons_default.
    + lia.
Qed.

(** Consecutive states of a trajectory are one pass of the body apart. *)
Lemma trajectory_step (n : nat) (s : S) (i : nat) (a b : S) :
  nth_error (s :: trajectory n step s) i = Some a ->
  nth_error (trajectory n step s) i = Some b ->
  step a = Ok b.
Proof.
  revert s i. induction n as [|n IH]; intros s i Ha Hb; simpl in *.
  - destruct i; discriminate.
  - destruct (step s) as [s1|e] eqn:Hs.
    + destruct i as [|i]; simpl in *.
      * congruence.
      * eapply IH; eassumption.
    + destruct i; discriminate.
Qed.

End Loops.

(** ** The call as a whole *)

(** The loop of the call changes nothing in the world: its passes are the
    passes of [loop_body] over the arrays [xs] and [ys] are bound to. *)
Lemma for_range_iteration (n : nat) lr (xs ys : ref) (beta : float64 * float64)
  (w : World) :
  for_range n (iteration lr xs ys) beta w =
  (iterate n (loop_body lr (contents xs w) (contents ys w)) beta, w).
Proof.
  revert beta. induction n as [|n IH]; intros beta; simpl.
  - reflexivity.
  - unfold bind at 1. unfold iteration at 1, bind, load, lift.
    fold (contents xs w). fold (contents ys w).
    destruct (loop_body lr (contents xs w) (contents ys w) beta) as [beta'|e];
      simpl; [apply IH | reflexivity].
Qed.

(** What a call returns and the world it leaves, in terms of the outcome of
    its loop. *)
Lemma learn_w_gradient_descent_run (xs ys : ref) (w : World) :
  learn_w_gradient_descent xs ys w =
  match loop_outcome xs ys w with
  | Ok beta =>
      (Ok PyNone,
       mkWorld (advance 2 (random_state w))
         (stdout w ++ initial_lines w ++ final_lines beta) (heap w))
  | Raise e =>
      (Raise e,
       mkWorld (advance 2 (random_state w))
         (stdout w ++ initial_lines w) (heap w))
  end.
Proof.
  unfold learn_w_gradient_descent, loop_outcome, learning_rate_of_trainer.
  generalize num_iterations as n. intros n.
  unfold bind at 1. unfold randint at 1. cbn [random_state stdout heap tape pos].
  unfold bind at 1. unfold randint at 1. cbn [random_state stdout heap tape pos].
  unfold bind at 1. unfold print at 1. cbn [random_state stdout heap tape pos].
  unfold bind at 1. unfold print at 1. cbn [random_state stdout heap tape pos].
  unfold bind at 1. rewrite for_range_iteration.
  unfold contents, initial_coefficients, initial_draw, advance, initial_lines.
  cbn [random_state stdout heap tape pos fst snd].
  replace (10 - 1)%Z with 9%Z by reflexivity.
  destruct (iterate n _ _) as [[b0 b1]|e].
  - unfold bind, print, ret, final_lines. cbn [random_state stdout heap fst snd].
    rewrite <- !app_assoc. reflexivity.
  - rewrite <- !app_assoc. reflexivity.
Qed.

Lemma loop_outcome_ok (xs ys : ref) (w : World) :
  shapes_agree xs ys w -> exists beta, loop_outcome xs ys w = Ok beta.
Proof.
  intros H. unfold loop_outcome. apply iterate_total.
  intros beta. apply loop_body_ok. exact H.
Qed.

Lemma loop_outcome_raise (xs ys : ref) (w : World) :
  ~ shapes_agree xs ys w -> loop_outcome xs ys w = Raise ValueError.
Proof.
  intros H. unfold loop_outcome.
  change num_iterations with (S (Nat.pred num_iterations)).
  apply iterate_raise. intros beta. apply loop_body_raise. exact H.
Qed.

Lemma loop_outcome_trajectory (xs ys : ref) (w : World) :
  match loop_outcome xs ys w with
  | Ok beta =>
      length (coefficient_trajectory xs ys w) = num_iterations /\
      last (coefficient_trajectory xs ys w) (initial_coefficients w) = beta
  | Raise _ => (length (coefficient_trajectory xs ys w) < num_iterations)%nat
  end.
Proof. apply iterate_trajectory. Qed.

Lemma shapes_agree_dec (xs ys : ref) (w : World) :
  {shapes_agree xs ys w} + {~ shapes_agree xs ys w}.
Proof. apply broadcastable_dec. Qed.

Lemma coefficient_trajectory_raise (xs ys : ref) (w : World) :
  ~ shapes_agree xs ys w -> coefficient_trajectory xs ys w = [].
Proof.
  intros H. unfold coefficient_trajectory, descent_trajectory.
  change num_iterations with (S (Nat.pred num_iterations)).
  cbn [trajectory]. rewrite loop_body_raise by exact H. reflexivity.
Qed.

Lemma mismatched_shapes_disagree : ~ shapes_agree 0 1 mismatched_world.
Proof. intros [H|[H|H]]; discriminate H. Qed.

(** ** What the call returns *)

(** C3, as stated, fails.  On five well-formed observations the call does
    not return a coefficient vector, whatever its entries. *)
Lemma returns_no_coefficients :
  length (contents 0 sample_world) = length (contents 1 sample_world) /\
  forall items : list float64,
    fst (learn_w_gradient_descent 0 1 sample_world) <> Ok (PySeq items).
Proof.
  split; [reflexivity|].
  intros items. rewrite learn_w_gradient_descent_run.
  destruct (loop_outcome 0 1 sample_world); simpl; discriminate.
Qed.

(** C3, amended.  The call takes [xs] and [ys] only: the learning rate 0.1
    and the 5000 iterations are constants of the function.  On every input
    whose shapes numpy can combine (equal lengths in particular) it returns
    [None]; the coefficients after the last iteration are printed, after the
    initial ones, and not returned. *)
Theorem call_prints_final_coefficients (xs ys : ref) (w : World) :
  shapes_agree xs ys w ->
  exists beta : float64 * float64,
    loop_outcome xs ys w = Ok beta /\
    last (coefficient_trajectory xs ys w) (initial_coefficients w) = beta /\
    learn_w_gradient_descent xs ys w =
      (Ok PyNone,
       mkWorld (advance 2 (random_state w))
         (stdout w ++ initial_lines w ++ final_lines beta) (heap w)).
Proof.
  intros H. destruct (loop_outcome_ok xs ys w H) as [beta Hbeta].
  exists beta. split; [exact Hbeta|]. split.
  - pose proof (loop_outcome_trajectory xs ys w) as T.
    rewrite Hbeta in T. apply T.
  - rewrite learn_w_gradient_descent_run, Hbeta. reflexivity.
Qed.

Lemma call_prints_final_coefficients_witness :
  shapes_agree 0 1 sample_world /\
  exists beta : float64 * float64,
    loop_outcome 0 1 sample_world = Ok beta /\
    last (coefficient_trajectory 0 1 sample_world)
      (initial_coefficients sample_world) = beta /\
    learn_w_gradient_descent 0 1 sample_world =
      (Ok PyNone,
       mkWorld (advance 2 (random_state sample_world))
         (stdout sample_world ++ initial_lines sample_world ++ final_lines beta)
         (heap sample_world)).
Proof.
  split.
  - left. reflexivity.
  - apply (call_prints_final_coefficients 0 1 sample_world). left. reflexivity.
Defined.

(** ** The number of iterations *)

(** C4, as stated, fails.  With two inputs and three outputs the first
    subtraction raises: the loop is left before a single update is made. *)
Lemma loop_left_early :
  length (coefficient_trajectory 0 1 mismatched_world) = 0%nat /\
  length (coefficient_trajectory 0 1 mismatched_world) <> num_iterations /\
  fst (learn_w_gradient_descent 0 1 mismatched_world) = Raise ValueError.
Proof.
  rewrite (coefficient_trajectory_raise 0 1 mismatched_world
             mismatched_shapes_disagree).
  rewrite learn_w_gradient_descent_run.
  rewrite (loop_outcome_raise 0 1 mismatched_world mismatched_shapes_disagree).
  repeat split. discriminate.
Qed.

(** C4, amended.  The iteration count is the constant 5000.  On every input
    whose shapes numpy can combine, the loop makes exactly 5000 updates, each
    one pass of the body from the state the previous one left, and then ends
    normally: nothing stops it earlier. *)
Theorem loop_runs_all_iterations (xs ys : ref) (w : World) :
  shapes_agree xs ys w ->
  num_iterations = 5000%nat /\
  length (coefficient_trajectory xs ys w) = num_iterations /\
  (forall (i : nat) (a b : float64 * float64),
      nth_error (initial_coefficients w :: coefficient_trajectory xs ys w) i
        = Some a ->
      nth_error (coefficient_trajectory xs ys w) i = Some b ->
      loop_body learning_rate_of_trainer (contents xs w) (contents ys w) a
        = Ok b) /\
  loop_outcome xs ys w =
    Ok (last (coefficient_trajectory xs ys w) (initial_coefficients w)) /\
  fst (learn_w_gradient_descent xs ys w) = Ok PyNone.
Proof.
  intros H. destruct (loop_outcome_ok xs ys w H) as [beta Hbeta].
  pose proof (loop_outcome_trajectory xs ys w) as T. rewrite Hbeta in T.
  destruct T as [Hlen Hlast].
  split; [reflexivity|]. split; [exact Hlen|]. split; [|split].
  - intros i a b. apply trajectory_step.
  - rewrite Hlast. exact Hbeta.
  - rewrite learn_w_gradient_descent_run, Hbeta. reflexivity.
Qed.

Lemma loop_runs_all_iterations_witness :
  shapes_agree 0 1 sample_world /\
  length (coefficient_trajectory 0 1 sample_world) = num_iterations /\
  fst (learn_w_gradient_descent 0 1 sample_world) = Ok PyNone.
Proof.
  split; [left; reflexivity|].
  destruct (loop_runs_all_iterations 0 1 sample_world) as (_ & L & _ & _ & F).
  - left. reflexivity.
  - split; [exact L | exact F].
Defined.

(** ** Errors *)

Lemma iterate_absorbed {S : Type} (step : S -> result S) (n : nat) (s t : S) :
  step s = Ok t -> step t = Ok t -> iterate (Datatypes.S n) step s = Ok t.
Proof.
  intros Hs Ht. simpl. rewrite Hs. simpl. clear Hs.
  induction n as [|n IH]; simpl; [reflexivity|].
  rewrite Ht. exact IH.
Qed.

Lemma empty_world_outcome : loop_outcome 0 1 empty_world = Ok (NaN, NaN).
Proof.
  unfold loop_outcome.
  change num_iterations with (S (Nat.pred num_iterations)).
  apply iterate_absorbed; reflexivity.
Qed.

(** C5, as stated, fails.  With zero observations, which the claim counts
    as malformed, no error is raised: the call runs to its end and prints
    [nan] for both coefficients. *)
Lemma zero_observations_accepted :
  contents 0 empty_world = [] /\
  contents 1 empty_world = [] /\
  fst (learn_w_gradient_descent 0 1 empty_world) = Ok PyNone /\
  stdout (snd (learn_w_gradient_descent 0 1 empty_world)) =
    initial_lines empty_world ++ final_lines (NaN, NaN).
Proof.
  rewrite learn_w_gradient_descent_run, empty_world_outcome.
  repeat split.
Qed.

(** C5, amended.  The call checks nothing and never raises
    [InvalidArgument].  It raises if and only if the lengths of [xs] and [ys]
    differ and neither is one; the error is then numpy's [ValueError], raised
    in the first iteration, after the two initial lines were printed and
    before any update.  With equal lengths, zero included, nothing is
    raised. *)
Theorem only_shape_errors (xs ys : ref) (w : World) :
  fst (learn_w_gradient_descent xs ys w) <> Raise InvalidArgument /\
  ((exists e, fst (learn_w_gradient_descent xs ys w) = Raise e) <->
   ~ shapes_agree xs ys w) /\
  (~ shapes_agree xs ys w ->
   learn_w_gradient_descent xs ys w =
     (Raise ValueError,
      mkWorld (advance 2 (random_state w)) (stdout w ++ initial_lines w)
        (heap w)) /\
   coefficient_trajectory xs ys w = []) /\
  (length (contents xs w) = length (contents ys w) ->
   fst (learn_w_gradient_descent xs ys w) = Ok PyNone).
Proof.
  rewrite learn_w_gradient_descent_run.
  destruct (shapes_agree_dec xs ys w) as [A|D].
  - destruct (loop_outcome_ok xs ys w A) as [beta ->]. simpl.
    split; [discriminate|]. split; [|split].
    + split; [intros [e He]; discriminate He | contradiction].
    + contradiction.
    + reflexivity.
  - rewrite (loop_outcome_raise xs ys w D). simpl.
    split; [discriminate|]. split; [|split].
    + split; [intros _; exact D | intros _; eexists; reflexivity].
    + intros _. split; [reflexivity|].
      apply coefficient_trajectory_raise. exact D.
    + intros E. exfalso. apply D. left. exact E.
Qed.

(** ** Effects *)

(** C7, as stated, fails.  A call prints, and it advances numpy's global
    random generator. *)
Lemma call_has_side_effects :
  stdout (snd (learn_w_gradient_descent 0 1 sample_world))
    <> stdout sample_world /\
  random_state (snd (learn_w_gradient_descent 0 1 sample_world))
    <> random_state sample_world.
Proof.
  rewrite learn_w_gradient_descent_run.
  destruct (loop_outcome 0 1 sample_world); simpl; split; discriminate.
Qed.

(** C7, amended.  A call has side effects.  On the generator, on stdout and
    on the arrays they are these: it takes two draws from numpy's global
    random generator, and it prints the two initial coefficients and, unless
    the shapes raise, the two final ones; no array is written.  What it
    returns, what it prints and the state it leaves the generator in depend on
    nothing but the state of the generator and the contents of [xs] and [ys]:
    a call made elsewhere, with these the same, does the same.  The warnings
    numpy may write to stderr are not part of the statement. *)
Theorem call_effects (xs ys : ref) (w : World) :
  let w' := snd (learn_w_gradient_descent xs ys w) in
  random_state w' = advance 2 (random_state w) /\
  stdout w' =
    stdout w ++ initial_lines w ++
    match loop_outcome xs ys w with
    | Ok beta => final_lines beta
    | Raise _ => []
    end /\
  heap w' = heap w /\
  forall (xs2 ys2 : ref) (w2 : World),
    random_state w2 = random_state w ->
    contents xs2 w2 = contents xs w ->
    contents ys2 w2 = contents ys w ->
    let w2' := snd (learn_w_gradient_descent xs2 ys2 w2) in
    fst (learn_w_gradient_descent xs2 ys2 w2)
      = fst (learn_w_gradient_descent xs ys w) /\
    random_state w2' = random_state w' /\
    heap w2' = heap w2 /\
    exists printed : list (string * pyobject),
      stdout w' = stdout w ++ printed /\
      stdout w2' = stdout w2 ++ printed.
Proof.
  cbv zeta. rewrite learn_w_gradient_descent_run.
  split; [|split; [|split]].
  - destruct (loop_outcome xs ys w); reflexivity.
  - destruct (loop_outcome xs ys w); simpl; rewrite ?app_nil_r; reflexivity.
  - destruct (loop_outcome xs ys w); reflexivity.
  - intros xs2 ys2 w2 Hr Hx Hy. rewrite learn_w_gradient_descent_run.
    assert (Hi : initial_lines w2 = initial_lines w).
    { unfold initial_lines, initial_draw. rewrite Hr. reflexivity. }
    assert (Ho : loop_outcome xs2 ys2 w2 = loop_outcome xs ys w).
    { unfold loop_outcome, initial_coefficients, initial_draw.
      rewrite Hr, Hx, Hy. reflexivity. }
    rewrite Ho, Hi, Hr.
    destruct (loop_outcome xs ys w) as [beta|e];
      cbn [fst snd random_state stdout heap];
      repeat split; eexists; split; reflexivity.
Qed.

(** C8.  When the call comes back, returning or raising, the arrays [xs]
    and [ys] hold what they held when it was made, as does every other
    array. *)
Theorem observations_unchanged (xs ys : ref) (w : World) :
  let w' := snd (learn_w_gradient_descent xs ys w) in
  contents xs w' = contents xs w /\
  contents ys w' = contents ys w /\
  forall r : ref, contents r w' = contents r w.
Proof.
  cbv zeta. rewrite learn_w_gradient_descent_run.
  destruct (loop_outcome xs ys w); simpl; repeat split.
Qed.

(** ** Determinism *)

Lemma random_samples_run (n : nat) (w : World) :
  exists features : ndarray,
    random_samples n w =
      (Ok features, mkWorld (advance n (random_state w)) (stdout w) (heap w)) /\
    forall w0 : World,
      random_state w0 = random_state w ->
      fst (random_samples n w0) = Ok features.
Proof.
  revert w. induction n as [|n IH]; intros w.
  - exists []. split.
    + destruct w as [[t p] out h]. reflexivity.
    + reflexivity.
  - cbn [random_samples]. unfold bind at 1, random_sample at 1.
    set (w1 := mkWorld (mkRandomState (tape (random_state w))
                          (S (pos (random_state w)))) (stdout w) (heap w)).
    destruct (IH w1) as (rest & Hrun & Hdet).
    eexists. split.
    + unfold bind at 1. rewrite Hrun. unfold ret. cbn.
      unfold advance. cbn. rewrite Nat.add_succ_r. reflexivity.
    + intros w0 E. unfold bind at 1, random_sample at 1.
      set (w2 := mkWorld _ _ _).
      assert (E2 : random_state w2 = random_state w1)
        by (subst w1 w2; cbn; rewrite E; reflexivity).
      specialize (Hdet w2 E2).
      unfold bind at 1.
      destruct (random_samples n w2) as [[r|e] w3]; cbn in Hdet; try discriminate.
      injection Hdet as ->. cbn. rewrite E. reflexivity.
Qed.

Lemma contents_alloc_1 (h : list ndarray) (a b : ndarray) st out :
  contents (length h) (mkWorld st out ((h ++ [a]) ++ [b])) = a.
Proof.
  unfold contents. cbn [heap]. rewrite <- app_assoc. cbn [app].
  rewrite nth_middle. reflexivity.
Qed.

Lemma contents_alloc_2 (h : list ndarray) (a b : ndarray) st out :
  contents (length (h ++ [a])) (mkWorld st out ((h ++ [a]) ++ [b])) = b.
Proof. unfold contents. cbn [heap]. rewrite nth_middle. reflexivity. Qed.

(** A call of the generator, in terms of the features it draws. *)
Lemma gen_simple_linear_run (b0 b1 : float64) (n_obs : Z) (w : World) :
  (n_obs <= 0)%Z /\ gen_simple_linear b0 b1 n_obs w = (Raise InvalidArgument, w)
  \/
  (0 < n_obs)%Z /\
  exists (features : ndarray) (xs ys : ref) (w' : World),
    gen_simple_linear b0 b1 n_obs w = (Ok (xs, ys), w') /\
    fst (random_samples (Z.to_nat n_obs) w) = Ok features /\
    contents xs w' = features /\
    contents ys w' = scalar_add b0 (scalar_mul b1 features) /\
    random_state w' = advance (Z.to_nat n_obs) (random_state w) /\
    stdout w' = stdout w.
Proof.
  unfold gen_simple_linear.
  destruct (Z.leb_spec n_obs 0) as [L|G].
  - left. split; [exact L | reflexivity].
  - right. split; [exact G|].
    destruct (random_samples_run (Z.to_nat n_obs) w) as (features & Hrun & _).
    unfold bind at 1. rewrite Hrun.
    unfold bind, alloc, ret. cbn [random_state stdout heap].
    exists features. do 3 eexists. split; [reflexivity|].
    split; [reflexivity|]. split; [apply contents_alloc_1|].
    split; [apply contents_alloc_2|]. split; reflexivity.
Qed.

Lemma loop_outcome_deterministic (xs1 ys1 xs2 ys2 : ref) (w1 w2 : World) :
  random_state w1 = random_state w2 ->
  contents xs1 w1 = contents xs2 w2 ->
  contents ys1 w1 = contents ys2 w2 ->
  initial_lines w1 = initial_lines w2 /\
  loop_outcome xs1 ys1 w1 = loop_outcome xs2 ys2 w2 /\
  coefficient_trajectory xs1 ys1 w1 = coefficient_trajectory xs2 ys2 w2.
Proof.
  intros Hr Hx Hy.
  unfold initial_lines, loop_outcome, coefficient_trajectory,
    initial_coefficients, initial_draw.
  rewrite Hr, Hx, Hy. repeat split.
Qed.

(** C6.  Two runs made with the generator in the same state and on the same
    data go through the same coefficients, print the same lines, end the same
    way and leave the generator in the same state; two calls of the data
    generator with the same true coefficients and observation count, made with
    the generator in the same state, yield the same observations. *)
Theorem deterministic_given_seed (w1 w2 : World) :
  random_state w1 = random_state w2 ->
  (forall xs1 ys1 xs2 ys2 : ref,
      contents xs1 w1 = contents xs2 w2 ->
      contents ys1 w1 = contents ys2 w2 ->
      let run1 := learn_w_gradient_descent xs1 ys1 w1 in
      let run2 := learn_w_gradient_descent xs2 ys2 w2 in
      coefficient_trajectory xs1 ys1 w1 = coefficient_trajectory xs2 ys2 w2 /\
      fst run1 = fst run2 /\
      random_state (snd run1) = random_state (snd run2) /\
      exists printed,
        stdout (snd run1) = stdout w1 ++ printed /\
        stdout (snd run2) = stdout w2 ++ printed) /\
  (forall (true_beta_0 true_beta_1 : float64) (n_obs : Z),
      match gen_simple_linear true_beta_0 true_beta_1 n_obs w1,
            gen_simple_linear true_beta_0 true_beta_1 n_obs w2 with
      | (Ok (xs1, ys1), w1'), (Ok (xs2, ys2), w2') =>
          contents xs1 w1' = contents xs2 w2' /\
          contents ys1 w1' = contents ys2 w2' /\
          random_state w1' = random_state w2'
      | (Raise e1, _), (Raise e2, _) => e1 = e2
      | _, _ => False
      end).
Proof.
  intros Hr. split.
  - intros xs1 ys1 xs2 ys2 Hx Hy. cbv zeta.
    destruct (loop_outcome_deterministic xs1 ys1 xs2 ys2 w1 w2 Hr Hx Hy)
      as (Hi & Ho & Ht).
    split; [exact Ht|].
    rewrite !learn_w_gradient_descent_run, Ho, Hi, Hr.
    destruct (loop_outcome xs2 ys2 w2) as [beta|e]; cbn [fst snd random_state stdout].
    + repeat split. eexists. split; reflexivity.
    + repeat split. eexists. split; reflexivity.
  - intros b0 b1 n.
    destruct (gen_simple_linear_run b0 b1 n w1)
      as [[L1 ->]|(G1 & f1 & x1 & y1 & w1' & -> & F1 & X1 & Y1 & R1 & _)];
    destruct (gen_simple_linear_run b0 b1 n w2)
      as [[L2 ->]|(G2 & f2 & x2 & y2 & w2' & -> & F2 & X2 & Y2 & R2 & _)];
      try lia.
    + reflexivity.
    + destruct (random_samples_run (Z.to_nat n) w2) as (f & _ & Hdet).
      rewrite (Hdet w1 Hr) in F1. rewrite (Hdet w2 eq_refl) in F2.
      injection F1 as <-. injection F2 as <-.
      rewrite X1, X2, Y1, Y2, R1, R2, Hr. repeat split.
Qed.

Lemma deterministic_given_seed_witness :
  random_state sample_world = random_state sample_world_later /\
  coefficient_trajectory 0 1 sample_world
    = coefficient_trajectory 1 2 sample_world_later /\
  fst (learn_w_gradient_descent 0 1 sample_world)
    = fst (learn_w_gradient_descent 1 2 sample_world_later).
Proof.
  split; [reflexivity|].
  destruct (deterministic_given_seed sample_world sample_world_later eq_refl)
    as [T _].
  destruct (T 0%nat 1%nat 1%nat 2%nat eq_refl eq_refl) as (Ht & Hf & _).
  split; [exact Ht | exact Hf].
Defined.

(** ** Iterations on real data *)

Section RealData.

Local Open Scope R_scope.

Lemma zip_with_map {A : Type} op (f g : A -> float64) (l : list A) :
  zip_with op (map f l) (map g l) = map (fun x => op (f x) (g x)) l.
Proof.
  induction l as [|x l IH]; simpl; [reflexivity|]. rewrite IH. reflexivity.
Qed.

Lemma broadcast_map {A : Type} op (f g : A -> float64) (l : list A) :
  broadcast op (map f l) (map g l) = Ok (map (fun x => op (f x) (g x)) l).
Proof.
  unfold broadcast. rewrite !length_map, Nat.eqb_refl, zip_with_map.
  reflexivity.
Qed.

Lemma array_sum_map_Num {A : Type} (f : A -> R) (l : list A) :
  array_sum (map (fun x => Num (f x)) l) = Num (sum_R (map f l)).
Proof.
  unfold array_sum, sum_R.
  induction l as [|x l IH]; simpl; [reflexivity|]. rewrite IH. reflexivity.
Qed.

Lemma mean_map_Num {A : Type} (f : A -> R) (l : list A) :
  l <> [] ->
  mean (map (fun x => Num (f x)) l) = Num (sum_R (map f l) / INR (length l)).
Proof.
  intros H. destruct l as [|x l]; [contradiction|].
  unfold mean. cbn [map].
  change (Num (f x) :: map (fun x0 => Num (f x0)) l)
    with (map (fun x0 => Num (f x0)) (x :: l)).
  rewrite array_sum_map_Num, length_map. reflexivity.
Qed.

Lemma INR_length_pos {A : Type} (l : list A) : l <> [] -> 0 < INR (length l).
Proof.
  intros H. destruct l as [|x l]; [contradiction|].
  apply lt_0_INR. simpl. lia.
Qed.

Variables beta_0 beta_1 : R.
Variable xs : list R.

Lemma sum_residuals (b0 b1 : R) :
  sum_R (map (fun x => beta_0 + beta_1 * x - (b0 + b1 * x)) xs) =
  - ((b0 - beta_0) * INR (length xs) + (b1 - beta_1) * sum_R xs).
Proof.
  unfold sum_R. induction xs as [|x l IH].
  - simpl. ring.
  - cbn [map fold_right]. rewrite IH.
    change (length (x :: l)) with (S (length l)). rewrite S_INR. ring.
Qed.

Lemma sum_residuals_times_inputs (b0 b1 : R) :
  sum_R (map (fun x => (beta_0 + beta_1 * x - (b0 + b1 * x)) * x) xs) =
  - ((b0 - beta_0) * sum_R xs + (b1 - beta_1) * sum_R (squares xs)).
Proof.
  unfold sum_R, squares. induction xs as [|x l IH].
  - simpl. ring.
  - cbn [map fold_right]. rewrite IH. ring.
Qed.

(** The gradient on noiseless data, in terms of the distance to the true
    coefficients and the first two moments of the inputs. *)
Lemma gradient_at_noiseless (b0 b1 : R) :
  xs <> [] ->
  gradient_at (reals xs) (reals (noiseless beta_0 beta_1 xs)) (Num b0, Num b1) =
  Ok (Num ((b0 - beta_0) + (b1 - beta_1) * mean_R xs),
      Num ((b0 - beta_0) * mean_R xs + (b1 - beta_1) * mean_R (squares xs))).
Proof.
  intros H. pose proof (INR_length_pos xs H) as Hn.
  unfold gradient_at, residuals, array_sub, array_mul, scalar_add, scalar_mul,
    reals, noiseless.
  cbn [fst snd]. rewrite !map_map. cbn [fmul fadd lift2].
  rewrite broadcast_map. cbn [rbind fsub lift2].
  rewrite broadcast_map. cbn [rbind fmul lift2].
  rewrite !mean_map_Num by exact H. cbn [fneg].
  rewrite sum_residuals, sum_residuals_times_inputs.
  unfold mean_R, squares. rewrite length_map.
  apply (f_equal Ok). apply f_equal2; apply (f_equal Num); field; lra.
Qed.

Lemma loop_body_noiseless (lr b0 b1 : R) :
  xs <> [] ->
  loop_body (Num lr) (reals xs) (reals (noiseless beta_0 beta_1 xs))
    (Num b0, Num b1) =
  Ok (Num (b0 - lr * ((b0 - beta_0) + (b1 - beta_1) * mean_R xs)),
      Num (b1 - lr * ((b0 - beta_0) * mean_R xs
                      + (b1 - beta_1) * mean_R (squares xs)))).
Proof.
  intros H. rewrite loop_body_descends, gradient_at_noiseless by exact H.
  reflexivity.
Qed.

End RealData.

(** ** The true coefficients as a fixpoint *)

(** C9, as stated, fails.  An observation set without observations satisfies
    the premise; the mean of an empty array is [nan], and so are both
    coefficients after one iteration. *)
Lemma no_fixpoint_without_observations :
  noiseless 6 2 [] = [] /\
  gradient_at (reals []) (reals (noiseless 6 2 [])) (Num 6, Num 2)
    = Ok (NaN, NaN) /\
  loop_body (Num (1 / 10)) (reals []) (reals (noiseless 6 2 [])) (Num 6, Num 2)
    = Ok (NaN, NaN) /\
  loop_body (Num (1 / 10)) (reals []) (reals (noiseless 6 2 [])) (Num 6, Num 2)
    <> Ok (Num 6, Num 2).
Proof. repeat split. discriminate. Qed.

(** C9, amended.  For every observation set with at least one observation
    in which each output equals [beta_0 + beta_1 * x] for its input [x], an
    iteration started at [(beta_0, beta_1)] computes zero gradients and leaves
    the coefficients as they are, for any learning rate. *)
Theorem true_coefficients_fixpoint (lr beta_0 beta_1 : R) (xs : list R) :
  xs <> [] ->
  gradient_at (reals xs) (reals (noiseless beta_0 beta_1 xs))
    (Num beta_0, Num beta_1) = Ok (Num 0, Num 0) /\
  loop_body (Num lr) (reals xs) (reals (noiseless beta_0 beta_1 xs))
    (Num beta_0, Num beta_1) = Ok (Num beta_0, Num beta_1).
Proof.
  intros H. split.
  - rewrite gradient_at_noiseless by exact H.
    apply (f_equal Ok). apply f_equal2; apply (f_equal Num); ring.
  - rewrite loop_body_noiseless by exact H.
    apply (f_equal Ok). apply f_equal2; apply (f_equal Num); ring.
Qed.

Lemma true_coefficients_fixpoint_witness :
  [0; 1; 2; 3; 4]%R <> [] /\
  loop_body (Num (1 / 10)) (reals [0; 1; 2; 3; 4]%R)
    (reals (noiseless 6 2 [0; 1; 2; 3; 4]%R)) (Num 6, Num 2)
    = Ok (Num 6, Num 2).
Proof.
  split; [discriminate|].
  apply (true_coefficients_fixpoint (1 / 10) 6 2 [0; 1; 2; 3; 4]%R).
  discriminate.
Defined.

(** ** Convergence *)

Section Convergence.

Local Open Scope R_scope.

Lemma sum_R_nonneg_ge {A : Type} (f : A -> R) (l : list A) (y : A) :
  (forall z, 0 <= f z) -> In y l -> f y <= sum_R (map f l).
Proof.
  intros Hf. unfold sum_R.
  assert (Hsum : forall l0, 0 <= fold_right Rplus 0 (map f l0)).
  { induction l0 as [|z l0 IH]; simpl; [lra|]. specialize (Hf z). lra. }
  induction l as [|z l IH]; intros Hin; simpl in *; [contradiction|].
  destruct Hin as [->|Hin].
  - specialize (Hsum l). lra.
  - specialize (IH Hin). specialize (Hf z). lra.
Qed.

Lemma sum_squared_deviations (m : R) (l : list R) :
  sum_R (map (fun x => (x - m) * (x - m)) l) =
  sum_R (squares l) - 2 * m * sum_R l + INR (length l) * (m * m).
Proof.
  unfold sum_R, squares. induction l as [|x l IH].
  - simpl. ring.
  - cbn [map fold_right]. rewrite IH.
    change (length (x :: l)) with (S (length l)). rewrite S_INR. ring.
Qed.

Lemma two_distinct_nonempty (l : list R) : two_distinct l -> l <> [].
Proof. intros (x & _ & Hx & _) ->. exact Hx. Qed.

Lemma variance_pos (l : list R) : two_distinct l -> 0 < variance l.
Proof.
  intros Hd. pose proof (two_distinct_nonempty l Hd) as Hne.
  pose proof (INR_length_pos l Hne) as Hn.
  destruct Hd as (x & x' & Hx & Hx' & Hneq).
  unfold variance.
  assert (Hsum : sum_R l = INR (length l) * mean_R l).
  { unfold mean_R. field. lra. }
  assert (Hsq : sum_R (squares l) = INR (length l) * mean_R (squares l)).
  { unfold mean_R, squares. rewrite length_map. field. lra. }
  generalize dependent (mean_R (squares l)). intros m2 Hsq.
  generalize dependent (mean_R l). intros m Hsum.
  assert (Hy : exists y, In y l /\ y <> m).
  { destruct (Req_dec x m) as [E|E].
    - exists x'. split; [exact Hx'|]. congruence.
    - exists x. split; [exact Hx | exact E]. }
  destruct Hy as (y & Hy & Hym).
  assert (Hpos : 0 < sum_R (map (fun z => (z - m) * (z - m)) l)).
  { apply Rlt_le_trans with ((y - m) * (y - m)).
    - assert (y - m <> 0) by lra. nra.
    - apply (sum_R_nonneg_ge (fun z => (z - m) * (z - m))); [|exact Hy].
      intros z. exact (Rle_0_sqr (z - m)). }
  rewrite sum_squared_deviations, Hsum, Hsq in Hpos.
  nra.
Qed.

Lemma mean_squares_nonneg (l : list R) : l <> [] -> 0 <= mean_R (squares l).
Proof.
  intros Hne. pose proof (INR_length_pos l Hne) as Hn.
  unfold mean_R, squares. rewrite length_map.
  apply Rmult_le_pos; [|left; apply Rinv_0_lt_compat; exact Hn].
  unfold sum_R. clear. induction l as [|x l IH]; simpl; [lra|]. nra.
Qed.

(** One iteration, on the distance to the true coefficients. *)
Lemma contraction_step (lr m1 m2 a b : R) :
  0 < 1 + m2 -> 0 < lr -> lr * (1 + m2) <= 2 ->
  let a' := a - lr * (a + b * m1) in
  let b' := b - lr * (a * m1 + b * m2) in
  a' * a' + b' * b' <=
  (1 - 2 * lr * (m2 - m1 * m1) / (1 + m2)) * (a * a + b * b).
Proof.
  intros HT Hlr Hsmall a' b'.
  set (g0 := a + b * m1). set (g1 := a * m1 + b * m2).
  assert (HG : 0 <= lr * (2 - lr * (1 + m2)) * (g0 * g0 + g1 * g1)).
  { apply Rmult_le_pos; [apply Rmult_le_pos; lra | nra]. }
  apply Rmult_le_reg_l with (1 + m2); [exact HT|].
  replace ((1 + m2) * ((1 - 2 * lr * (m2 - m1 * m1) / (1 + m2)) * (a * a + b * b)))
    with ((1 + m2 - 2 * lr * (m2 - m1 * m1)) * (a * a + b * b))
    by (field; lra).
  replace ((1 + m2) * (a' * a' + b' * b'))
    with ((1 + m2 - 2 * lr * (m2 - m1 * m1)) * (a * a + b * b)
          - lr * (2 - lr * (1 + m2)) * (g0 * g0 + g1 * g1))
    by (subst a' b' g0 g1; ring).
  lra.
Qed.

Lemma contraction_range (lr : R) (l : list R) :
  two_distinct l -> 0 < lr -> lr * (1 + mean_R (squares l)) <= 2 ->
  0 <= contraction lr l < 1.
Proof.
  intros Hd Hlr Hsmall.
  pose proof (variance_pos l Hd) as HD.
  pose proof (mean_squares_nonneg l (two_distinct_nonempty l Hd)) as Hm2.
  unfold contraction.
  assert (HDm : variance l <= mean_R (squares l)).
  { unfold variance. nra. }
  generalize dependent (variance l). intros D HD HDm.
  generalize dependent (mean_R (squares l)). intros m2 Hsmall Hm2 HDm.
  assert (HT : 0 < 1 + m2) by lra.
  assert (Hq : 0 < 2 * lr * D / (1 + m2)).
  { apply Rdiv_lt_0_compat; nra. }
  assert (Hq1 : 2 * lr * D / (1 + m2) <= 1).
  { apply Rmult_le_reg_l with (1 + m2); [exact HT|].
    replace ((1 + m2) * (2 * lr * D / (1 + m2))) with (2 * lr * D)
      by (field; lra).
    apply Rmult_le_reg_l with (1 + m2); [exact HT|].
    apply Rle_trans with (2 * (2 * D)).
    - replace ((1 + m2) * (2 * lr * D)) with ((lr * (1 + m2)) * (2 * D)) by ring.
      apply Rmult_le_compat_r; lra.
    - pose proof (Rle_0_sqr (1 - m2)) as Hsq. unfold Rsqr in Hsq. nra. }
  lra.
Qed.

End Convergence.

Section Recovery.

Local Open Scope R_scope.

Lemma iterate_fixpoint {S : Type} (step : S -> result S) (n : nat) (s : S) :
  step s = Ok s -> iterate n step s = Ok s.
Proof.
  intros H. induction n as [|n IH]; simpl; [reflexivity|].
  rewrite H. exact IH.
Qed.

Lemma Rabs_lt_of_squares (d t : R) : 0 < t -> d * d < t * t -> Rabs d < t.
Proof.
  intros Ht Hd. destruct (Rlt_le_dec (Rabs d) t) as [L|G]; [exact L|].
  exfalso.
  assert (Habs : Rabs d * Rabs d = d * d).
  { rewrite <- Rabs_mult. apply Rabs_pos_eq. exact (Rle_0_sqr d). }
  assert (t * t <= Rabs d * Rabs d) by (apply Rmult_le_compat; lra).
  lra.
Qed.

Variables beta_0 beta_1 lr : R.
Variable xs : list R.

(** Each iteration on noiseless data with two distinct inputs brings the
    coefficients closer to the true ones by the factor [contraction lr xs]. *)
Lemma descent_contracts :
  two_distinct xs -> 0 < lr -> lr * (1 + mean_R (squares xs)) <= 2 ->
  forall (n : nat) (b0 b1 : R),
  exists c0 c1 : R,
    iterate n
      (loop_body (Num lr) (reals xs) (reals (noiseless beta_0 beta_1 xs)))
      (Num b0, Num b1) = Ok (Num c0, Num c1) /\
    distance2 c0 c1 beta_0 beta_1
      <= contraction lr xs ^ n * distance2 b0 b1 beta_0 beta_1.
Proof.
  intros Hd Hlr Hsmall.
  pose proof (two_distinct_nonempty xs Hd) as Hne.
  pose proof (contraction_range lr xs Hd Hlr Hsmall) as [Hrho0 Hrho1].
  pose proof (mean_squares_nonneg xs Hne) as Hm2.
  induction n as [|n IH]; intros b0 b1.
  - exists b0, b1. split; [reflexivity|]. simpl. lra.
  - cbn [iterate]. rewrite loop_body_noiseless by exact Hne. cbn [rbind].
    destruct (IH (b0 - lr * ((b0 - beta_0) + (b1 - beta_1) * mean_R xs))
                 (b1 - lr * ((b0 - beta_0) * mean_R xs
                             + (b1 - beta_1) * mean_R (squares xs))))
      as (c0 & c1 & Hrun & Hbound).
    exists c0, c1. split; [exact Hrun|].
    eapply Rle_trans; [exact Hbound|].
    rewrite <- tech_pow_Rmult.
    replace (contraction lr xs * contraction lr xs ^ n
             * distance2 b0 b1 beta_0 beta_1)
      with (contraction lr xs ^ n
            * (contraction lr xs * distance2 b0 b1 beta_0 beta_1)) by ring.
    apply Rmult_le_compat_l; [apply pow_le; exact Hrho0|].
    unfold distance2, contraction, variance.
    pose proof (contraction_step lr (mean_R xs) (mean_R (squares xs))
                  (b0 - beta_0) (b1 - beta_1)) as Hstep.
    cbv zeta in Hstep.
    eapply Rle_trans; [|apply Hstep; lra].
    apply Req_le. ring.
Qed.

End Recovery.

(** C10, as stated, fails.  Two noiseless observations of [y = 6 + 2 x] at
    the same input are as many observations as coefficients, and the true
    coefficients are non-zero; the line through the initial draw [(4, 4)] fits
    them too, so that every gradient is zero: whatever the learning rate and
    the number of iterations, the coefficients stay at [(4, 4)], at distance 2
    from the true ones. *)
Lemma degenerate_data_not_recovered :
  contents 0 degenerate_world = reals [1; 1]%R /\
  contents 1 degenerate_world = reals (noiseless 6 2 [1; 1]%R) /\
  initial_coefficients degenerate_world = (Num 4, Num 4) /\
  (forall (lr : R) (n : nat),
      iterate n
        (loop_body (Num lr) (reals [1; 1]%R) (reals (noiseless 6 2 [1; 1]%R)))
        (Num 4, Num 4) = Ok (Num 4, Num 4)) /\
  loop_outcome 0 1 degenerate_world = Ok (Num 4, Num 4) /\
  (1 / 100 <= Rabs (4 - 6))%R.
Proof.
  assert (Hdata : reals [8; 8]%R = reals (noiseless 6 2 [1; 1]%R)).
  { unfold reals, noiseless. cbn [map].
    replace (6 + 2 * 1)%R with 8%R by lra. reflexivity. }
  assert (Hfit : noiseless 6 2 [1; 1]%R = noiseless 4 4 [1; 1]%R).
  { unfold noiseless. cbn [map].
    replace (6 + 2 * 1)%R with (4 + 4 * 1)%R by lra. reflexivity. }
  assert (Hstay : forall (lr : R) (n : nat),
             iterate n
               (loop_body (Num lr) (reals [1; 1]%R)
                  (reals (noiseless 6 2 [1; 1]%R)))
               (Num 4, Num 4) = Ok (Num 4, Num 4)).
  { intros lr n. apply iterate_fixpoint. rewrite Hfit.
    rewrite loop_body_noiseless by discriminate.
    apply (f_equal Ok). apply f_equal2; apply (f_equal Num); ring. }
  split; [reflexivity|]. split; [exact Hdata|]. split; [reflexivity|].
  split; [exact Hstay|]. split.
  - unfold loop_outcome, learning_rate_of_trainer.
    change (contents 0 degenerate_world) with (reals [1; 1]%R).
    change (contents 1 degenerate_world) with (reals [8; 8]%R).
    rewrite Hdata.
    change (initial_coefficients degenerate_world) with (Num 4, Num 4).
    apply Hstay.
  - rewrite Rabs_left by lra. lra.
Qed.

(** C10, amended.  In exact arithmetic, for any true coefficients, noiseless
    data whose inputs take at least two distinct values, any start and any
    learning rate [lr] with [0 < lr] and [lr * (1 + mean of the squared
    inputs) <= 2] (0.1 qualifies when that mean is at most 19): each iteration
    shrinks the squared distance to the true coefficients by the factor
    [contraction lr xs < 1], and for every tolerance there is an iteration
    count from which on the coefficients lie within the tolerance of the true
    ones. *)
Theorem descent_recovers_coefficients (beta_0 beta_1 lr : R) (xs : list R)
  (b0 b1 : R) :
  two_distinct xs -> (0 < lr)%R -> (lr * (1 + mean_R (squares xs)) <= 2)%R ->
  (0 <= contraction lr xs < 1)%R /\
  (forall n : nat,
      exists c0 c1 : R,
        iterate n
          (loop_body (Num lr) (reals xs) (reals (noiseless beta_0 beta_1 xs)))
          (Num b0, Num b1) = Ok (Num c0, Num c1) /\
        (distance2 c0 c1 beta_0 beta_1
         <= contraction lr xs ^ n * distance2 b0 b1 beta_0 beta_1)%R) /\
  (forall tol : R, (0 < tol)%R ->
      exists N : nat, forall n : nat, (N <= n)%nat ->
      exists c0 c1 : R,
        iterate n
          (loop_body (Num lr) (reals xs) (reals (noiseless beta_0 beta_1 xs)))
          (Num b0, Num b1) = Ok (Num c0, Num c1) /\
        (Rabs (c0 - beta_0) < tol)%R /\ (Rabs (c1 - beta_1) < tol)%R).
Proof.
  intros Hd Hlr Hsmall.
  pose proof (contraction_range lr xs Hd Hlr Hsmall) as Hrho.
  split; [exact Hrho|]. split.
  - intros n. apply descent_contracts; assumption.
  - intros tol Htol.
    set (V0 := distance2 b0 b1 beta_0 beta_1).
    assert (HV0 : (0 <= V0)%R).
    { unfold V0, distance2.
      pose proof (Rle_0_sqr (b0 - beta_0)) as H0.
      pose proof (Rle_0_sqr (b1 - beta_1)) as H1.
      unfold Rsqr in *. lra. }
    assert (Heps : (0 < tol * tol / (V0 + 1))%R).
    { apply Rdiv_lt_0_compat; [apply Rmult_lt_0_compat; exact Htol | lra]. }
    destruct (pow_lt_1_zero (contraction lr xs)) with (y := (tol * tol / (V0 + 1))%R)
      as [N HN]; [apply Rabs_def1; lra | exact Heps |].
    exists N. intros n Hn.
    destruct (descent_contracts beta_0 beta_1 lr xs Hd Hlr Hsmall n b0 b1)
      as (c0 & c1 & Hrun & Hbound).
    exists c0, c1. split; [exact Hrun|].
    fold V0 in Hbound.
    assert (Hpow : (0 <= contraction lr xs ^ n)%R) by (apply pow_le; lra).
    assert (Hlt : (contraction lr xs ^ n < tol * tol / (V0 + 1))%R).
    { specialize (HN n Hn). rewrite Rabs_pos_eq in HN by exact Hpow. exact HN. }
    assert (Hdist : (distance2 c0 c1 beta_0 beta_1 < tol * tol)%R).
    { apply Rle_lt_trans with (contraction lr xs ^ n * (V0 + 1))%R.
      - eapply Rle_trans; [exact Hbound|].
        apply Rmult_le_compat_l; [exact Hpow | lra].
      - apply Rmult_lt_reg_r with (/ (V0 + 1))%R;
          [apply Rinv_0_lt_compat; lra|].
        replace (contraction lr xs ^ n * (V0 + 1) * / (V0 + 1))%R
          with (contraction lr xs ^ n)%R by (field; lra).
        exact Hlt. }
    unfold distance2 in Hdist.
    pose proof (Rle_0_sqr (c0 - beta_0)) as H0.
    pose proof (Rle_0_sqr (c1 - beta_1)) as H1.
    unfold Rsqr in H0, H1.
    split; apply Rabs_lt_of_squares; try exact Htol; lra.
Qed.

Lemma descent_recovers_coefficients_witness :
  two_distinct [0; 1; 2; 3; 4]%R /\
  (0 < 1 / 10)%R /\
  (1 / 10 * (1 + mean_R (squares [0; 1; 2; 3; 4]%R)) <= 2)%R /\
  exists N : nat, forall n : nat, (N <= n)%nat ->
  exists c0 c1 : R,
    iterate n
      (loop_body (Num (1 / 10)) (reals [0; 1; 2; 3; 4]%R)
         (reals (noiseless 6 2 [0; 1; 2; 3; 4]%R)))
      (Num 4, Num 4) = Ok (Num c0, Num c1) /\
    (Rabs (c0 - 6) < 1 / 100)%R /\ (Rabs (c1 - 2) < 1 / 100)%R.
Proof.
  assert (H1 : two_distinct [0; 1; 2; 3; 4]%R).
  { exists 0%R, 1%R. simpl. repeat split; [tauto | tauto | lra]. }
  assert (H2 : (0 < 1 / 10)%R) by lra.
  assert (H3 : (1 / 10 * (1 + mean_R (squares [0; 1; 2; 3; 4]%R)) <= 2)%R).
  { unfold mean_R, squares, sum_R. simpl. lra. }
  split; [exact H1|]. split; [exact H2|]. split; [exact H3|].
  destruct (descent_recovers_coefficients 6 2 (1 / 10) [0; 1; 2; 3; 4]%R 4 4
              H1 H2 H3) as (_ & _ & H).
  apply H. lra.
Defined.

(** The same bound for the call itself, whose learning rate is 0.1 and whose
    iteration count is 5000: on noiseless data with two distinct inputs whose
    mean square is at most 19, the coefficients it prints at the end are
    closer to the true ones than the initial draw by the factor
    [contraction (1 / 10) xs ^ 5000] on the squared distance. *)
Lemma call_contracts (xs ys : ref) (w : World) (inputs : list R)
  (beta_0 beta_1 : R) :
  contents xs w = reals inputs ->
  contents ys w = reals (noiseless beta_0 beta_1 inputs) ->
  two_distinct inputs ->
  (mean_R (squares inputs) <= 19)%R ->
  exists c0 c1 : R,
    loop_outcome xs ys w = Ok (Num c0, Num c1) /\
    (distance2 c0 c1 beta_0 beta_1
     <= contraction (1 / 10) inputs ^ num_iterations
        * distance2 (IZR (fst (initial_draw w))) (IZR (snd (initial_draw w)))
            beta_0 beta_1)%R.
Proof.
  intros Hx Hy Hd Hm. unfold loop_outcome, learning_rate_of_trainer.
  rewrite Hx, Hy. unfold initial_coefficients, to_float.
  apply descent_contracts; [exact Hd | lra | lra].
Qed.

(** The statement of C2 tells the code from an update that interleaves: on
    one observation [(1, 0)], from [(1, 0)] with learning rate 1, the code
    reaches [(0, -1)] where the interleaved update reaches [(0, 0)]. *)
Lemma interleaved_body_differs :
  loop_body (Num 1) (reals [1]%R) (reals [0]%R) (Num 1, Num 0)
    = Ok (Num 0, Num (-1)) /\
  interleaved_body (Num 1) (reals [1]%R) (reals [0]%R) (Num 1, Num 0)
    = Ok (Num 0, Num 0).
Proof.
  split.
  - unfold loop_body, reals. cbn.
    apply (f_equal Ok). apply f_equal2; apply (f_equal Num); lra.
  - unfold interleaved_body, gradient_at, residuals, descend, reals. cbn.
    apply (f_equal Ok). apply f_equal2; apply (f_equal Num); lra.
Qed.

(** * Further properties of the iteration *)

(** ** Noisy data *)

Section Observations.

Local Open Scope R_scope.

Variable obs : list (R * R).

Lemma sum_errors (b0 b1 : R) :
  sum_R (map (fun p => snd p - (b0 + b1 * fst p)) obs)
  = sum_R (outputs obs) - b0 * INR (length obs) - b1 * sum_R (inputs obs).
Proof.
  unfold sum_R, inputs, outputs.
  induction obs as [|p l IH].
  - simpl. ring.
  - cbn [map fold_right]. rewrite IH.
    change (length (p :: l)) with (S (length l)). rewrite S_INR.
    destruct p as [x y]. cbn [fst snd]. ring.
Qed.

Lemma sum_errors_times_inputs (b0 b1 : R) :
  sum_R (map (fun p => (snd p - (b0 + b1 * fst p)) * fst p) obs)
  = sum_R (map (fun p => fst p * snd p) obs) - b0 * sum_R (inputs obs)
    - b1 * sum_R (squares (inputs obs)).
Proof.
  unfold sum_R, inputs, squares. rewrite map_map.
  induction obs as [|p l IH].
  - simpl. ring.
  - cbn [map fold_right]. rewrite IH.
    destruct p as [x y]. cbn [fst snd]. ring.
Qed.

Lemma sum_half_squares (b0 b1 u v : R) :
  sum_R (map (fun p => 1 / 2 * ((snd p - (b0 + u + (b1 + v) * fst p))
                                * (snd p - (b0 + u + (b1 + v) * fst p)))) obs)
  = sum_R (map (fun p => 1 / 2 * ((snd p - (b0 + b1 * fst p))
                                  * (snd p - (b0 + b1 * fst p)))) obs)
    + u * (b0 * INR (length obs) + b1 * sum_R (inputs obs)
           - sum_R (outputs obs))
    + v * (b0 * sum_R (inputs obs) + b1 * sum_R (squares (inputs obs))
           - sum_R (map (fun p => fst p * snd p) obs))
    + 1 / 2 * (INR (length obs) * (u * u) + 2 * (u * v) * sum_R (inputs obs)
               + v * v * sum_R (squares (inputs obs))).
Proof.
  unfold sum_R, inputs, outputs, squares. rewrite map_map.
  induction obs as [|p l IH].
  - simpl. ring.
  - cbn [map fold_right]. rewrite IH.
    change (length (p :: l)) with (S (length l)). rewrite S_INR.
    destruct p as [x y]. cbn [fst snd]. field.
Qed.

Hypothesis nonempty : obs <> [].

Lemma sums_of_means :
  sum_R (inputs obs) = INR (length obs) * mean_R (inputs obs) /\
  sum_R (outputs obs) = INR (length obs) * mean_R (outputs obs) /\
  sum_R (squares (inputs obs))
    = INR (length obs) * mean_R (squares (inputs obs)) /\
  sum_R (map (fun p => fst p * snd p) obs) = INR (length obs) * mean_xy obs.
Proof.
  pose proof (INR_length_pos obs nonempty) as Hn.
  unfold mean_xy, mean_R, inputs, outputs, squares. rewrite !length_map.
  repeat split; field; lra.
Qed.

(** The gradients an iteration uses, on any real observations. *)
Lemma gradient_at_observations (b0 b1 : R) :
  gradient_at (reals (inputs obs)) (reals (outputs obs)) (Num b0, Num b1)
  = Ok (Num (slope_0 obs b0 b1), Num (slope_1 obs b0 b1)).
Proof.
  pose proof (INR_length_pos obs nonempty) as Hn.
  destruct sums_of_means as (Hx & Hy & Hxx & Hxy).
  unfold gradient_at, residuals, array_sub, array_mul, scalar_add, scalar_mul,
    reals, inputs, outputs.
  cbn [fst snd]. rewrite !map_map. cbn [fmul fadd lift2].
  rewrite broadcast_map. cbn [rbind fsub lift2].
  rewrite broadcast_map. cbn [rbind fmul lift2].
  rewrite !mean_map_Num by exact nonempty. cbn [fneg].
  rewrite sum_errors, sum_errors_times_inputs, Hx, Hy, Hxx, Hxy.
  unfold slope_0, slope_1.
  apply (f_equal Ok). apply f_equal2; apply (f_equal Num); field; lra.
Qed.

Lemma loop_body_observations (lr b0 b1 : R) :
  loop_body (Num lr) (reals (inputs obs)) (reals (outputs obs)) (Num b0, Num b1)
  = Ok (Num (b0 - lr * slope_0 obs b0 b1), Num (b1 - lr * slope_1 obs b0 b1)).
Proof. rewrite loop_body_descends, gradient_at_observations. reflexivity. Qed.

(** The cost of real coefficients on real observations. *)
Lemma cost_observations (b0 b1 : R) :
  cost (reals (inputs obs)) (reals (outputs obs)) (Num b0, Num b1)
  = Ok (Num (cost_R obs b0 b1)).
Proof.
  unfold cost, E, array_sub, array_square, scalar_add, scalar_mul, reals,
    inputs, outputs.
  rewrite !map_map. cbn [fmul fadd lift2].
  rewrite broadcast_map. cbn [rbind fsub lift2].
  rewrite !map_map. cbn [fmul lift2].
  rewrite mean_map_Num by exact nonempty.
  unfold cost_R, mean_R. rewrite length_map. reflexivity.
Qed.

Lemma cost_R_sum (b0 b1 : R) :
  cost_R obs b0 b1
  = sum_R (map (fun p => 1 / 2 * ((snd p - (b0 + b1 * fst p))
                                  * (snd p - (b0 + b1 * fst p)))) obs)
    / INR (length obs).
Proof. unfold cost_R, mean_R. rewrite length_map. reflexivity. Qed.

(** The cost is a quadratic function of the coefficients. *)
Lemma cost_R_expansion (b0 b1 u v : R) :
  cost_R obs (b0 + u) (b1 + v)
  = cost_R obs b0 b1 + u * slope_0 obs b0 b1 + v * slope_1 obs b0 b1
    + 1 / 2 * (u * u + 2 * (u * v) * mean_R (inputs obs)
               + v * v * mean_R (squares (inputs obs))).
Proof.
  pose proof (INR_length_pos obs nonempty) as Hn.
  destruct sums_of_means as (Hx & Hy & Hxx & Hxy).
  rewrite !cost_R_sum, sum_half_squares, Hx, Hy, Hxx, Hxy.
  unfold slope_0, slope_1. field. lra.
Qed.

End Observations.

(** ** The cost and its derivatives *)

Section CostDescent.

Local Open Scope R_scope.

Lemma quadratic_derivative (f : R -> R) (x g c : R) :
  0 <= c ->
  (forall h, f (x + h) = f x + g * h + c * (h * h)) ->
  derivable_pt_lim f x g.
Proof.
  intros Hc Hf eps Heps.
  assert (Hd : 0 < eps / (c + 1)) by (apply Rdiv_lt_0_compat; lra).
  exists (mkposreal _ Hd). intros h Hh Hlt. cbn [pos] in Hlt.
  replace ((f (x + h) - f x) / h - g) with (c * h)
    by (rewrite Hf; field; exact Hh).
  rewrite Rabs_mult, (Rabs_pos_eq c) by exact Hc.
  pose proof (Rabs_pos h) as Hpos.
  assert (Hmul : (c + 1) * Rabs h < eps).
  { apply Rmult_lt_reg_r with (/ (c + 1)); [apply Rinv_0_lt_compat; lra|].
    replace ((c + 1) * Rabs h * / (c + 1)) with (Rabs h) by (field; lra).
    exact Hlt. }
  lra.
Qed.

Lemma variance_nonneg (l : list R) : l <> [] -> 0 <= variance l.
Proof.
  intros Hne. pose proof (INR_length_pos l Hne) as Hn.
  unfold variance.
  assert (Hsum : sum_R l = INR (length l) * mean_R l).
  { unfold mean_R. field. lra. }
  assert (Hsq : sum_R (squares l) = INR (length l) * mean_R (squares l)).
  { unfold mean_R, squares. rewrite length_map. field. lra. }
  generalize dependent (mean_R (squares l)). intros m2 Hsq.
  generalize dependent (mean_R l). intros m Hsum.
  assert (Hpos : 0 <= sum_R (map (fun z => (z - m) * (z - m)) l)).
  { unfold sum_R. clear. induction l as [|z l IH]; simpl; [lra|].
    pose proof (Rle_0_sqr (z - m)) as Hz. unfold Rsqr in Hz. lra. }
  rewrite sum_squared_deviations, Hsum, Hsq in Hpos.
  nra.
Qed.

Variable obs : list (R * R).
Hypothesis nonempty : obs <> [].

(** One iteration lowers the cost by at least a multiple of the squared
    length of the gradient. *)
Lemma cost_R_descent (lr b0 b1 : R) :
  0 <= lr -> lr * (1 + mean_R (squares (inputs obs))) <= 2 ->
  cost_R obs (b0 - lr * slope_0 obs b0 b1) (b1 - lr * slope_1 obs b0 b1)
  <= cost_R obs b0 b1
     - lr * (1 - lr * (1 + mean_R (squares (inputs obs))) / 2)
       * (slope_0 obs b0 b1 * slope_0 obs b0 b1
          + slope_1 obs b0 b1 * slope_1 obs b0 b1).
Proof.
  intros Hlr Hsmall.
  replace (b0 - lr * slope_0 obs b0 b1) with (b0 + - (lr * slope_0 obs b0 b1))
    by ring.
  replace (b1 - lr * slope_1 obs b0 b1) with (b1 + - (lr * slope_1 obs b0 b1))
    by ring.
  rewrite (cost_R_expansion obs nonempty).
  assert (Hne : inputs obs <> []).
  { unfold inputs. destruct obs; [contradiction | discriminate]. }
  pose proof (variance_nonneg (inputs obs) Hne) as Hvar. unfold variance in Hvar.
  generalize dependent (mean_R (squares (inputs obs))). intros m2 Hsmall Hvar.
  revert Hvar. generalize (mean_R (inputs obs)). intros m1 Hvar.
  generalize (slope_0 obs b0 b1) as g0. intros g0.
  generalize (slope_1 obs b0 b1) as g1. intros g1.
  generalize (cost_R obs b0 b1) as c. intros c.
  assert (HQ : m2 * (g0 * g0) - 2 * m1 * (g0 * g1) + g1 * g1 >= 0).
  { pose proof (Rle_0_sqr (g1 - m1 * g0)) as Hs. unfold Rsqr in Hs.
    assert (0 <= (m2 - m1 * m1) * (g0 * g0)).
    { apply Rmult_le_pos; [lra|]. pose proof (Rle_0_sqr g0) as H0.
      unfold Rsqr in H0. exact H0. }
    lra. }
  assert (Hll : 0 <= lr * lr) by (apply Rmult_le_pos; exact Hlr).
  assert (H1 : 0 <= lr * lr * (m2 * (g0 * g0) - 2 * m1 * (g0 * g1) + g1 * g1)).
  { apply Rmult_le_pos; lra. }
  lra.
Qed.

End CostDescent.

Lemma observations_nonempty_inputs (obs : list (R * R)) :
  obs <> [] -> inputs obs <> [].
Proof. unfold inputs. destruct obs; [contradiction | discriminate]. Qed.

Lemma loop_body_cost_observations (obs : list (R * R)) (lr b0 b1 : R) :
  obs <> [] ->
  (0 <= lr)%R -> (lr * (1 + mean_R (squares (inputs obs))) <= 2)%R ->
  exists c0 c1 : R,
    loop_body (Num lr) (reals (inputs obs)) (reals (outputs obs))
      (Num b0, Num b1) = Ok (Num c0, Num c1) /\
    cost (reals (inputs obs)) (reals (outputs obs)) (Num b0, Num b1)
      = Ok (Num (cost_R obs b0 b1)) /\
    cost (reals (inputs obs)) (reals (outputs obs)) (Num c0, Num c1)
      = Ok (Num (cost_R obs c0 c1)) /\
    (cost_R obs c0 c1 <= cost_R obs b0 b1)%R.
Proof.
  intros Hne Hlr Hsmall.
  exists (b0 - lr * slope_0 obs b0 b1)%R, (b1 - lr * slope_1 obs b0 b1)%R.
  split; [apply loop_body_observations; exact Hne|].
  split; [apply cost_observations; exact Hne|].
  split; [apply cost_observations; exact Hne|].
  eapply Rle_trans; [apply cost_R_descent; assumption|].
  pose proof (mean_squares_nonneg (inputs obs)
                (observations_nonempty_inputs obs Hne)) as Hm2.
  generalize dependent (mean_R (squares (inputs obs))). intros m2 Hsmall Hm2.
  pose proof (Rle_0_sqr (slope_0 obs b0 b1)) as H0.
  pose proof (Rle_0_sqr (slope_1 obs b0 b1)) as H1. unfold Rsqr in H0, H1.
  assert (0 <= lr * (1 - lr * (1 + m2) / 2)
               * (slope_0 obs b0 b1 * slope_0 obs b0 b1
                  + slope_1 obs b0 b1 * slope_1 obs b0 b1))%R.
  { apply Rmult_le_pos; [apply Rmult_le_pos; lra | lra]. }
  lra.
Qed.

(** X1.  On observations that are real numbers, at least one of them, the two
    values by which an iteration moves the coefficients (times the learning
    rate) are the partial derivatives, in [beta_0] and in [beta_1], of the
    cost [E = (0.5 * (es ** 2)).mean()] that [get_theano_graph] differentiates
    automatically. *)
Theorem loop_body_follows_derivatives (obs : list (R * R)) (lr b0 b1 : R) :
  obs <> [] ->
  exists g0 g1 : R,
    loop_body (Num lr) (reals (inputs obs)) (reals (outputs obs))
      (Num b0, Num b1) = Ok (Num (b0 - lr * g0), Num (b1 - lr * g1)) /\
    (forall c0 c1 : R,
        cost (reals (inputs obs)) (reals (outputs obs)) (Num c0, Num c1)
        = Ok (Num (cost_R obs c0 c1))) /\
    derivable_pt_lim (fun t => cost_R obs t b1) b0 g0 /\
    derivable_pt_lim (fun t => cost_R obs b0 t) b1 g1.
Proof.
  intros Hne. exists (slope_0 obs b0 b1), (slope_1 obs b0 b1).
  split; [apply loop_body_observations; exact Hne|].
  split; [intros c0 c1; apply cost_observations; exact Hne|].
  pose proof (mean_squares_nonneg (inputs obs)
                (observations_nonempty_inputs obs Hne)) as Hm2.
  split.
  - apply quadratic_derivative with (c := (1 / 2)%R); [lra|].
    intros h. replace b1 with (b1 + 0)%R at 1 by ring.
    rewrite (cost_R_expansion obs Hne). ring.
  - apply quadratic_derivative
      with (c := (1 / 2 * mean_R (squares (inputs obs)))%R); [lra|].
    intros h. replace b0 with (b0 + 0)%R at 1 by ring.
    rewrite (cost_R_expansion obs Hne). ring.
Qed.

Lemma loop_body_follows_derivatives_witness :
  sample_observations <> [] /\
  exists g0 g1 : R,
    loop_body (Num (1 / 10)) (reals (inputs sample_observations))
      (reals (outputs sample_observations)) (Num 4, Num 4)
      = Ok (Num (4 - 1 / 10 * g0), Num (4 - 1 / 10 * g1)) /\
    derivable_pt_lim (fun t => cost_R sample_observations t 4) 4 g0 /\
    derivable_pt_lim (fun t => cost_R sample_observations 4 t) 4 g1.
Proof.
  split; [discriminate|].
  destruct (loop_body_follows_derivatives sample_observations (1 / 10) 4 4)
    as (g0 & g1 & Hbody & _ & H0 & H1); [discriminate|].
  exists g0, g1. repeat split; assumption.
Defined.

(** X2.  On observations that are real numbers, at least one of them, noisy
    or not, an iteration with a learning rate [lr] such that [0 <= lr] and
    [lr * (1 + mean of the squared inputs) <= 2] does not increase the cost
    [E] of the errors. *)
Theorem loop_body_decreases_cost (obs : list (R * R)) (lr b0 b1 : R) :
  obs <> [] ->
  (0 <= lr)%R -> (lr * (1 + mean_R (squares (inputs obs))) <= 2)%R ->
  exists c0 c1 E0 E1 : R,
    loop_body (Num lr) (reals (inputs obs)) (reals (outputs obs))
      (Num b0, Num b1) = Ok (Num c0, Num c1) /\
    cost (reals (inputs obs)) (reals (outputs obs)) (Num b0, Num b1)
      = Ok (Num E0) /\
    cost (reals (inputs obs)) (reals (outputs obs)) (Num c0, Num c1)
      = Ok (Num E1) /\
    (E1 <= E0)%R.
Proof.
  intros Hne Hlr Hsmall.
  destruct (loop_body_cost_observations obs lr b0 b1 Hne Hlr Hsmall)
    as (c0 & c1 & Hbody & HE0 & HE1 & Hle).
  exists c0, c1, (cost_R obs b0 b1), (cost_R obs c0 c1).
  repeat split; assumption.
Qed.

Lemma loop_body_decreases_cost_witness :
  noisy_observations <> [] /\
  (0 <= 1 / 10)%R /\
  (1 / 10 * (1 + mean_R (squares (inputs noisy_observations))) <= 2)%R /\
  exists c0 c1 E0 E1 : R,
    loop_body (Num (1 / 10)) (reals (inputs noisy_observations))
      (reals (outputs noisy_observations)) (Num 4, Num 4)
      = Ok (Num c0, Num c1) /\
    cost (reals (inputs noisy_observations)) (reals (outputs noisy_observations))
      (Num 4, Num 4) = Ok (Num E0) /\
    cost (reals (inputs noisy_observations)) (reals (outputs noisy_observations))
      (Num c0, Num c1) = Ok (Num E1) /\
    (E1 <= E0)%R.
Proof.
  assert (H1 : noisy_observations <> []) by discriminate.
  assert (H2 : (0 <= 1 / 10)%R) by lra.
  assert (H3 : (1 / 10 * (1 + mean_R (squares (inputs noisy_observations)))
                <= 2)%R).
  { unfold mean_R, squares, sum_R. simpl. lra. }
  split; [exact H1|]. split; [exact H2|]. split; [exact H3|].
  exact (loop_body_decreases_cost noisy_observations (1 / 10) 4 4 H1 H2 H3).
Defined.

(** ** The least-squares line *)

Section LeastSquares.

Local Open Scope R_scope.

Variable obs : list (R * R).
Hypothesis distinct : two_distinct (inputs obs).

Lemma distinct_nonempty : obs <> [].
Proof.
  intros ->. destruct distinct as (x & _ & Hx & _). exact Hx.
Qed.

(** The gradients, in terms of the distance to the least-squares line. *)
Lemma slopes_from_ols (b0 b1 : R) :
  slope_0 obs b0 b1
    = (b0 - ols_intercept obs) + (b1 - ols_slope obs) * mean_R (inputs obs) /\
  slope_1 obs b0 b1
    = (b0 - ols_intercept obs) * mean_R (inputs obs)
      + (b1 - ols_slope obs) * mean_R (squares (inputs obs)).
Proof.
  pose proof (variance_pos (inputs obs) distinct) as HD.
  unfold slope_0, slope_1, ols_intercept, ols_slope.
  unfold variance in *.
  split; field; lra.
Qed.

Lemma ols_is_stationary :
  slope_0 obs (ols_intercept obs) (ols_slope obs) = 0 /\
  slope_1 obs (ols_intercept obs) (ols_slope obs) = 0.
Proof.
  destruct (slopes_from_ols (ols_intercept obs) (ols_slope obs)) as [-> ->].
  split; ring.
Qed.

Lemma stationary_is_ols (b0 b1 : R) :
  slope_0 obs b0 b1 = 0 -> slope_1 obs b0 b1 = 0 ->
  b0 = ols_intercept obs /\ b1 = ols_slope obs.
Proof.
  intros H0 H1.
  pose proof (variance_pos (inputs obs) distinct) as HD. unfold variance in HD.
  destruct (slopes_from_ols b0 b1) as [E0 E1].
  rewrite E0 in H0. rewrite E1 in H1. clear E0 E1.
  remember (b0 - ols_intercept obs) as a eqn:Ea.
  remember (b1 - ols_slope obs) as b eqn:Eb.
  assert (Hb : b * (mean_R (squares (inputs obs))
                    - mean_R (inputs obs) * mean_R (inputs obs)) = 0).
  { replace (b * (mean_R (squares (inputs obs))
                  - mean_R (inputs obs) * mean_R (inputs obs)))
      with (a * mean_R (inputs obs) + b * mean_R (squares (inputs obs))
            - mean_R (inputs obs) * (a + b * mean_R (inputs obs))) by ring.
    rewrite H0, H1. ring. }
  apply Rmult_integral in Hb. destruct Hb as [Hb|Hb]; [|lra].
  rewrite Hb in H0. split; lra.
Qed.

Lemma descent_contracts_observations (lr : R) :
  0 < lr -> lr * (1 + mean_R (squares (inputs obs))) <= 2 ->
  forall (k : nat) (b0 b1 : R),
  exists c0 c1 : R,
    iterate k
      (loop_body (Num lr) (reals (inputs obs)) (reals (outputs obs)))
      (Num b0, Num b1) = Ok (Num c0, Num c1) /\
    distance2 c0 c1 (ols_intercept obs) (ols_slope obs)
      <= contraction lr (inputs obs) ^ k
         * distance2 b0 b1 (ols_intercept obs) (ols_slope obs).
Proof.
  intros Hlr Hsmall.
  pose proof distinct_nonempty as Hne.
  pose proof (contraction_range lr (inputs obs) distinct Hlr Hsmall)
    as [Hrho0 Hrho1].
  pose proof (mean_squares_nonneg (inputs obs)
                (observations_nonempty_inputs obs Hne)) as Hm2.
  induction k as [|k IH]; intros b0 b1.
  - exists b0, b1. split; [reflexivity|]. simpl. lra.
  - cbn [iterate]. rewrite loop_body_observations by exact Hne. cbn [rbind].
    destruct (IH (b0 - lr * slope_0 obs b0 b1) (b1 - lr * slope_1 obs b0 b1))
      as (c0 & c1 & Hrun & Hbound).
    exists c0, c1. split; [exact Hrun|].
    eapply Rle_trans; [exact Hbound|].
    rewrite <- tech_pow_Rmult.
    replace (contraction lr (inputs obs) * contraction lr (inputs obs) ^ k
             * distance2 b0 b1 (ols_intercept obs) (ols_slope obs))
      with (contraction lr (inputs obs) ^ k
            * (contraction lr (inputs obs)
               * distance2 b0 b1 (ols_intercept obs) (ols_slope obs)))
      by ring.
    apply Rmult_le_compat_l; [apply pow_le; exact Hrho0|].
    destruct (slopes_from_ols b0 b1) as [-> ->].
    unfold distance2, contraction, variance.
    pose proof (contraction_step lr (mean_R (inputs obs))
                  (mean_R (squares (inputs obs)))
                  (b0 - ols_intercept obs) (b1 - ols_slope obs)) as Hstep.
    cbv zeta in Hstep.
    eapply Rle_trans; [|apply Hstep; lra].
    apply Req_le. ring.
Qed.

End LeastSquares.

Lemma geometric_tolerance (rho V0 tol : R) :
  (0 <= rho < 1)%R -> (0 <= V0)%R -> (0 < tol)%R ->
  exists N : nat, forall k : nat, (N <= k)%nat ->
    (rho ^ k * V0 < tol * tol)%R.
Proof.
  intros Hrho HV0 Htol.
  assert (Heps : (0 < tol * tol / (V0 + 1))%R).
  { apply Rdiv_lt_0_compat; [apply Rmult_lt_0_compat; exact Htol | lra]. }
  destruct (pow_lt_1_zero rho) with (y := (tol * tol / (V0 + 1))%R)
    as [N HN]; [apply Rabs_def1; lra | exact Heps |].
  exists N. intros k Hk.
  assert (Hpow : (0 <= rho ^ k)%R) by (apply pow_le; lra).
  specialize (HN k Hk). rewrite Rabs_pos_eq in HN by exact Hpow.
  apply Rle_lt_trans with (rho ^ k * (V0 + 1))%R.
  - apply Rmult_le_compat_l; [exact Hpow | lra].
  - apply Rmult_lt_reg_r with (/ (V0 + 1))%R; [apply Rinv_0_lt_compat; lra|].
    replace (rho ^ k * (V0 + 1) * / (V0 + 1))%R with (rho ^ k)%R
      by (field; lra).
    exact HN.
Qed.

Lemma distance2_nonneg (c0 c1 b0 b1 : R) : (0 <= distance2 c0 c1 b0 b1)%R.
Proof.
  unfold distance2.
  pose proof (Rle_0_sqr (c0 - b0)) as H0. pose proof (Rle_0_sqr (c1 - b1)) as H1.
  unfold Rsqr in *. lra.
Qed.

Lemma within_tolerance (c0 c1 b0 b1 tol : R) :
  (0 < tol)%R -> (distance2 c0 c1 b0 b1 < tol * tol)%R ->
  (Rabs (c0 - b0) < tol)%R /\ (Rabs (c1 - b1) < tol)%R.
Proof.
  intros Htol Hd. unfold distance2 in Hd.
  pose proof (Rle_0_sqr (c0 - b0)) as H0. pose proof (Rle_0_sqr (c1 - b1)) as H1.
  unfold Rsqr in H0, H1.
  split; apply Rabs_lt_of_squares; try exact Htol; lra.
Qed.

(** X3.  In exact arithmetic, on real observations whose inputs take two
    distinct values, and for a learning rate other than zero, an iteration
    leaves the coefficients as they are exactly at the least-squares line: the
    iteration has one resting point, the fit that ordinary least squares
    gives.  (Rounded arithmetic can come to rest a rounding error away.) *)
Theorem fixpoint_iff_least_squares (obs : list (R * R)) (lr b0 b1 : R) :
  two_distinct (inputs obs) -> lr <> 0%R ->
  (loop_body (Num lr) (reals (inputs obs)) (reals (outputs obs))
     (Num b0, Num b1) = Ok (Num b0, Num b1)
   <-> b0 = ols_intercept obs /\ b1 = ols_slope obs).
Proof.
  intros Hd Hlr.
  rewrite loop_body_observations by (apply distinct_nonempty; exact Hd).
  split.
  - intros H. injection H as H0 H1.
    apply stationary_is_ols; [exact Hd | |].
    + assert (Hz : (lr * slope_0 obs b0 b1 = 0)%R) by lra.
      apply Rmult_integral in Hz. destruct Hz; [contradiction | assumption].
    + assert (Hz : (lr * slope_1 obs b0 b1 = 0)%R) by lra.
      apply Rmult_integral in Hz. destruct Hz; [contradiction | assumption].
  - intros [-> ->]. destruct (ols_is_stationary obs Hd) as [-> ->].
    apply (f_equal Ok). apply f_equal2; apply (f_equal Num); ring.
Qed.

Lemma fixpoint_iff_least_squares_witness :
  two_distinct (inputs noisy_observations) /\
  (1 / 10 <> 0)%R /\
  (loop_body (Num (1 / 10)) (reals (inputs noisy_observations))
     (reals (outputs noisy_observations)) (Num 4, Num 4) = Ok (Num 4, Num 4)
   <-> 4%R = ols_intercept noisy_observations
       /\ 4%R = ols_slope noisy_observations).
Proof.
  assert (H1 : two_distinct (inputs noisy_observations)).
  { exists 0%R, 1%R. simpl. repeat split; [tauto | tauto | lra]. }
  assert (H2 : (1 / 10 <> 0)%R) by lra.
  split; [exact H1|]. split; [exact H2|].
  exact (fixpoint_iff_least_squares noisy_observations (1 / 10) 4 4 H1 H2).
Defined.

(** X4.  On real observations, noisy or not, whose inputs take two distinct
    values, with [0 < lr] and [lr * (1 + mean of the squared inputs) <= 2],
    the iterations approach the least-squares line from any start: every
    iteration shrinks the squared distance to it by the factor
    [contraction lr xs < 1], so that every tolerance is met from some
    iteration count on. *)
Theorem descent_approaches_least_squares (obs : list (R * R)) (lr b0 b1 : R) :
  two_distinct (inputs obs) ->
  (0 < lr)%R -> (lr * (1 + mean_R (squares (inputs obs))) <= 2)%R ->
  (forall k : nat,
      exists c0 c1 : R,
        iterate k
          (loop_body (Num lr) (reals (inputs obs)) (reals (outputs obs)))
          (Num b0, Num b1) = Ok (Num c0, Num c1) /\
        (distance2 c0 c1 (ols_intercept obs) (ols_slope obs)
         <= contraction lr (inputs obs) ^ k
            * distance2 b0 b1 (ols_intercept obs) (ols_slope obs))%R) /\
  (forall tol : R, (0 < tol)%R ->
      exists N : nat, forall k : nat, (N <= k)%nat ->
      exists c0 c1 : R,
        iterate k
          (loop_body (Num lr) (reals (inputs obs)) (reals (outputs obs)))
          (Num b0, Num b1) = Ok (Num c0, Num c1) /\
        (Rabs (c0 - ols_intercept obs) < tol)%R /\
        (Rabs (c1 - ols_slope obs) < tol)%R).
Proof.
  intros Hd Hlr Hsmall.
  pose proof (contraction_range lr (inputs obs) Hd Hlr Hsmall) as Hrho.
  split.
  - intros k. apply descent_contracts_observations; assumption.
  - intros tol Htol.
    destruct (geometric_tolerance (contraction lr (inputs obs))
                (distance2 b0 b1 (ols_intercept obs) (ols_slope obs)) tol
                Hrho (distance2_nonneg _ _ _ _) Htol) as [N HN].
    exists N. intros k Hk.
    destruct (descent_contracts_observations obs Hd lr Hlr Hsmall k b0 b1)
      as (c0 & c1 & Hrun & Hbound).
    exists c0, c1. split; [exact Hrun|].
    apply within_tolerance; [exact Htol|].
    eapply Rle_lt_trans; [exact Hbound | apply HN; exact Hk].
Qed.

Lemma descent_approaches_least_squares_witness :
  two_distinct (inputs noisy_observations) /\
  (0 < 1 / 10)%R /\
  (1 / 10 * (1 + mean_R (squares (inputs noisy_observations))) <= 2)%R /\
  exists N : nat, forall k : nat, (N <= k)%nat ->
  exists c0 c1 : R,
    iterate k
      (loop_body (Num (1 / 10)) (reals (inputs noisy_observations))
         (reals (outputs noisy_observations)))
      (Num 4, Num 4) = Ok (Num c0, Num c1) /\
    (Rabs (c0 - ols_intercept noisy_observations) < 1 / 100)%R /\
    (Rabs (c1 - ols_slope noisy_observations) < 1 / 100)%R.
Proof.
  assert (H1 : two_distinct (inputs noisy_observations)).
  { exists 0%R, 1%R. simpl. repeat split; [tauto | tauto | lra]. }
  assert (H2 : (0 < 1 / 10)%R) by lra.
  assert (H3 : (1 / 10 * (1 + mean_R (squares (inputs noisy_observations)))
                <= 2)%R).
  { unfold mean_R, squares, sum_R. simpl. lra. }
  split; [exact H1|]. split; [exact H2|]. split; [exact H3|].
  destruct (descent_approaches_least_squares noisy_observations (1 / 10) 4 4
              H1 H2 H3) as [_ H].
  apply H. lra.
Defined.

(** ** The cost along a call *)

Lemma trajectory_invariant {S : Type} (P : S -> Prop) (step : S -> result S) :
  (forall a b, P a -> step a = Ok b -> P b) ->
  forall (k : nat) (s : S), P s -> Forall P (trajectory k step s).
Proof.
  intros Hstep. induction k as [|k IH]; intros s Hs; simpl.
  - constructor.
  - destruct (step s) as [s'|e] eqn:Hs'; [|constructor].
    constructor; [eapply Hstep; eassumption|].
    apply IH. eapply Hstep; eassumption.
Qed.

Lemma equal_lengths_agree (xs ys : ref) (w : World) (obs : list (R * R)) :
  contents xs w = reals (inputs obs) ->
  contents ys w = reals (outputs obs) ->
  shapes_agree xs ys w.
Proof.
  intros Hx Hy. unfold shapes_agree. rewrite Hx, Hy.
  unfold reals, inputs, outputs. rewrite !length_map. left. reflexivity.
Qed.

(** X5.  In exact arithmetic, when the arrays of a call hold real
    observations, at least one, whose squared inputs have a mean of at most
    19, the call returns [None] after its 5000 iterations, prints the last
    coefficients of its trajectory, and along that trajectory the cost [E]
    never increases from one iteration to the next.  (Rounding, which is not
    modelled, can make the cost of the running code jitter near the
    optimum.) *)
Theorem call_cost_never_increases (xs ys : ref) (w : World)
  (obs : list (R * R)) :
  contents xs w = reals (inputs obs) ->
  contents ys w = reals (outputs obs) ->
  obs <> [] ->
  (mean_R (squares (inputs obs)) <= 19)%R ->
  learn_w_gradient_descent xs ys w =
    (Ok PyNone,
     mkWorld (advance 2 (random_state w))
       (stdout w ++ initial_lines w
        ++ final_lines (last (coefficient_trajectory xs ys w)
                          (initial_coefficients w)))
       (heap w)) /\
  length (coefficient_trajectory xs ys w) = num_iterations /\
  forall (i : nat) (a b : float64 * float64),
    nth_error (initial_coefficients w :: coefficient_trajectory xs ys w) i
      = Some a ->
    nth_error (coefficient_trajectory xs ys w) i = Some b ->
    exists Ea Eb : R,
      cost (contents xs w) (contents ys w) a = Ok (Num Ea) /\
      cost (contents xs w) (contents ys w) b = Ok (Num Eb) /\
      (Eb <= Ea)%R.
Proof.
  intros Hx Hy Hne Hm.
  destruct (loop_outcome_ok xs ys w (equal_lengths_agree xs ys w obs Hx Hy))
    as [beta Hbeta].
  pose proof (loop_outcome_trajectory xs ys w) as T. rewrite Hbeta in T.
  destruct T as [Hlen Hlast].
  split; [|split].
  - rewrite learn_w_gradient_descent_run, Hbeta, Hlast. reflexivity.
  - exact Hlen.
  - clear beta Hbeta Hlen Hlast. intros i a b Ha Hb.
    unfold coefficient_trajectory, descent_trajectory,
      learning_rate_of_trainer in *.
    rewrite Hx, Hy in *.
    set (step := loop_body (Num (1 / 10)) (reals (inputs obs))
                   (reals (outputs obs))) in *.
    set (finite := fun beta : float64 * float64 =>
                     exists c0 c1 : R, beta = (Num c0, Num c1)).
    assert (Hinv : forall p q, finite p -> step p = Ok q -> finite q).
    { intros p q (p0 & p1 & ->) Hq. subst step.
      rewrite loop_body_observations in Hq by exact Hne.
      injection Hq as <-. eexists. eexists. reflexivity. }
    assert (Hinit : finite (initial_coefficients w)).
    { eexists. eexists. reflexivity. }
    pose proof (trajectory_invariant finite step Hinv num_iterations
                  (initial_coefficients w) Hinit) as Hall.
    assert (Hfa : finite a).
    { apply nth_error_In in Ha. destruct Ha as [<-|Ha]; [exact Hinit|].
      rewrite Forall_forall in Hall. apply Hall. exact Ha. }
    destruct Hfa as (a0 & a1 & ->).
    pose proof (trajectory_step step num_iterations (initial_coefficients w)
                  i (Num a0, Num a1) b Ha Hb) as Hstep.
    destruct (loop_body_cost_observations obs (1 / 10) a0 a1 Hne)
      as (c0 & c1 & Hbody & HE0 & HE1 & Hle); [lra | lra |].
    subst step. rewrite Hbody in Hstep. injection Hstep as <-.
    exists (cost_R obs a0 a1), (cost_R obs c0 c1).
    repeat split; assumption.
Qed.

Lemma call_cost_never_increases_witness :
  contents 0 sample_world = reals (inputs sample_observations) /\
  contents 1 sample_world = reals (outputs sample_observations) /\
  sample_observations <> [] /\
  (mean_R (squares (inputs sample_observations)) <= 19)%R /\
  learn_w_gradient_descent 0 1 sample_world =
    (Ok PyNone,
     mkWorld (advance 2 (random_state sample_world))
       (stdout sample_world ++ initial_lines sample_world
        ++ final_lines (last (coefficient_trajectory 0 1 sample_world)
                          (initial_coefficients sample_world)))
       (heap sample_world)) /\
  length (coefficient_trajectory 0 1 sample_world) = num_iterations /\
  forall (i : nat) (a b : float64 * float64),
    nth_error (initial_coefficients sample_world
               :: coefficient_trajectory 0 1 sample_world) i = Some a ->
    nth_error (coefficient_trajectory 0 1 sample_world) i = Some b ->
    exists Ea Eb : R,
      cost (contents 0 sample_world) (contents 1 sample_world) a
        = Ok (Num Ea) /\
      cost (contents 0 sample_world) (contents 1 sample_world) b
        = Ok (Num Eb) /\
      (Eb <= Ea)%R.
Proof.
  assert (H1 : contents 0 sample_world = reals (inputs sample_observations))
    by reflexivity.
  assert (H2 : contents 1 sample_world = reals (outputs sample_observations))
    by reflexivity.
  assert (H3 : sample_observations <> []) by discriminate.
  assert (H4 : (mean_R (squares (inputs sample_observations)) <= 19)%R).
  { unfold mean_R, squares, sum_R. simpl. lra. }
  split; [exact H1|]. split; [exact H2|]. split; [exact H3|].
  split; [exact H4|].
  exact (call_cost_never_increases 0 1 sample_world sample_observations
           H1 H2 H3 H4).
Defined.

(** ** Missing values *)

Section MissingValues.

Local Open Scope float_scope.

Lemma fadd_NaN_r (a : float64) : a + NaN = NaN.
Proof. destruct a; reflexivity. Qed.

Lemma fsub_NaN_r (a : float64) : a - NaN = NaN.
Proof. destruct a; reflexivity. Qed.

Lemma fmul_NaN_r (a : float64) : a * NaN = NaN.
Proof. destruct a; reflexivity. Qed.

Lemma array_sum_NaN (a : ndarray) : In NaN a -> array_sum a = NaN.
Proof.
  unfold array_sum. induction a as [|x a IH]; intros H; [contradiction|].
  destruct H as [->|H]; simpl; [reflexivity|].
  rewrite (IH H). apply fadd_NaN_r.
Qed.

Lemma mean_NaN (a : ndarray) : In NaN a -> mean a = NaN.
Proof.
  intros H. destruct a as [|x a]; [contradiction|].
  unfold mean. rewrite (array_sum_NaN _ H). reflexivity.
Qed.

Lemma zip_with_NaN op (a b : ndarray) :
  (forall x, op NaN x = NaN) -> (forall x, op x NaN = NaN) ->
  length a = length b -> In NaN a \/ In NaN b -> In NaN (zip_with op a b).
Proof.
  intros Hl Hr. revert b.
  induction a as [|x a IH]; intros [|y b] Hlen H; simpl in *;
    try discriminate.
  - destruct H; contradiction.
  - destruct H as [[->|H]|[->|H]].
    + left. apply Hl.
    + right. apply IH; [congruence | left; exact H].
    + left. apply Hr.
    + right. apply IH; [congruence | right; exact H].
Qed.

Lemma broadcast_equal_lengths op (a b : ndarray) :
  length a = length b -> broadcast op a b = Ok (zip_with op a b).
Proof. intros H. unfold broadcast. rewrite H, Nat.eqb_refl. reflexivity. Qed.

Lemma loop_body_NaN lr (xs ys : ndarray) (beta : float64 * float64) :
  length xs = length ys -> In NaN xs \/ In NaN ys ->
  loop_body lr xs ys beta = Ok (NaN, NaN).
Proof.
  intros Hlen H. destruct beta as [b0 b1]. unfold loop_body, array_sub, array_mul.
  set (yhats := scalar_add b0 (scalar_mul b1 xs)).
  assert (Hyh : length ys = length yhats).
  { subst yhats. unfold scalar_add, scalar_mul. rewrite !length_map. congruence. }
  rewrite (broadcast_equal_lengths fsub ys yhats Hyh). cbn [rbind].
  assert (Hes : In NaN (zip_with fsub ys yhats)).
  { apply zip_with_NaN; [reflexivity | apply fsub_NaN_r | exact Hyh |].
    destruct H as [H|H]; [right | left; exact H].
    subst yhats. unfold scalar_add, scalar_mul. rewrite map_map.
    apply in_map_iff. exists NaN. split; [|exact H].
    rewrite fmul_NaN_r. apply fadd_NaN_r. }
  assert (Hneg : In NaN (array_neg (zip_with fsub ys yhats))).
  { unfold array_neg. apply in_map_iff. exists NaN. split; [reflexivity|].
    exact Hes. }
  assert (Hlen2 : length (array_neg (zip_with fsub ys yhats)) = length xs).
  { unfold array_neg. rewrite length_map, zip_with_length by exact Hyh.
    congruence. }
  rewrite (broadcast_equal_lengths fmul _ xs Hlen2). cbn [rbind].
  rewrite (mean_NaN _ Hneg).
  rewrite (mean_NaN (zip_with fmul (array_neg (zip_with fsub ys yhats)) xs)).
  - rewrite fmul_NaN_r, !fsub_NaN_r. reflexivity.
  - apply zip_with_NaN; [reflexivity | apply fmul_NaN_r | exact Hlen2 |].
    left. exact Hneg.
Qed.

End MissingValues.

(** X6.  One [nan] among the inputs or the outputs of a call with arrays of
    equal length is enough for both coefficients to be [nan] after the first
    iteration and to stay so: no error is raised, and the call prints [nan]
    for both final coefficients. *)
Theorem nan_poisons_call (xs ys : ref) (w : World) :
  length (contents xs w) = length (contents ys w) ->
  In NaN (contents xs w) \/ In NaN (contents ys w) ->
  (forall lr beta,
      loop_body lr (contents xs w) (contents ys w) beta = Ok (NaN, NaN)) /\
  learn_w_gradient_descent xs ys w =
    (Ok PyNone,
     mkWorld (advance 2 (random_state w))
       (stdout w ++ initial_lines w ++ final_lines (NaN, NaN)) (heap w)).
Proof.
  intros Hlen H.
  assert (Hbody : forall lr beta,
             loop_body lr (contents xs w) (contents ys w) beta = Ok (NaN, NaN)).
  { intros lr beta. apply loop_body_NaN; assumption. }
  split; [exact Hbody|].
  rewrite learn_w_gradient_descent_run.
  assert (Hout : loop_outcome xs ys w = Ok (NaN, NaN)).
  { unfold loop_outcome.
    change num_iterations with (S (Nat.pred num_iterations)).
    apply iterate_absorbed; apply Hbody. }
  rewrite Hout. reflexivity.
Qed.

Lemma nan_poisons_call_witness :
  length (contents 0 sample_world_with_nan)
    = length (contents 1 sample_world_with_nan) /\
  (In NaN (contents 0 sample_world_with_nan)
   \/ In NaN (contents 1 sample_world_with_nan)) /\
  stdout (snd (learn_w_gradient_descent 0 1 sample_world_with_nan))
    = stdout sample_world_with_nan ++ initial_lines sample_world_with_nan
      ++ final_lines (NaN, NaN).
Proof.
  assert (H1 : length (contents 0 sample_world_with_nan)
               = length (contents 1 sample_world_with_nan)) by reflexivity.
  assert (H2 : In NaN (contents 0 sample_world_with_nan)
               \/ In NaN (contents 1 sample_world_with_nan)).
  { right. simpl. tauto. }
  split; [exact H1|]. split; [exact H2|].
  destruct (nan_poisons_call 0 1 sample_world_with_nan H1 H2) as [_ ->].
  reflexivity.
Defined.

(** ** The order of the observations *)

Section Order.

Local Open Scope float_scope.

Lemma fadd_swap (a b c : float64) : a + (b + c) = b + (a + c).
Proof.
  destruct a, b, c; simpl; try reflexivity.
  apply (f_equal Num). ring.
Qed.

Lemma array_sum_permutation (a b : ndarray) :
  Permutation a b -> array_sum a = array_sum b.
Proof.
  unfold array_sum. induction 1 as [|x a b _ IH|x y a|a b c _ IH1 _ IH2]; simpl.
  - reflexivity.
  - rewrite IH. reflexivity.
  - apply fadd_swap.
  - congruence.
Qed.

Lemma mean_permutation (a b : ndarray) : Permutation a b -> mean a = mean b.
Proof.
  intros H. pose proof (Permutation_length H) as Hlen.
  pose proof (array_sum_permutation a b H) as Hsum.
  destruct a as [|x a], b as [|y b]; try discriminate; [reflexivity|].
  unfold mean. rewrite Hsum, Hlen. reflexivity.
Qed.

(** An iteration on paired observations, as two means over the pairs. *)
Lemma loop_body_pairs lr (obs : list (float64 * float64)) (b0 b1 : float64) :
  loop_body lr (map fst obs) (map snd obs) (b0, b1) =
  Ok (b0 - lr * mean (map (fun p => - (snd p - (b0 + b1 * fst p))) obs),
      b1 - lr * mean (map (fun p => - (snd p - (b0 + b1 * fst p)) * fst p) obs)).
Proof.
  unfold loop_body, array_sub, array_mul, scalar_add, scalar_mul, array_neg.
  rewrite !map_map, broadcast_map. cbn [rbind].
  rewrite !map_map, broadcast_map. cbn [rbind]. reflexivity.
Qed.

End Order.

(** X7.  In exact arithmetic an iteration does not depend on the order of
    the observations: reordering inputs and outputs together yields the same
    new coefficients. *)
Theorem loop_body_order_irrelevant lr (obs obs' : list (float64 * float64))
  (beta : float64 * float64) :
  Permutation obs obs' ->
  loop_body lr (map fst obs) (map snd obs) beta
  = loop_body lr (map fst obs') (map snd obs') beta.
Proof.
  intros H. destruct beta as [b0 b1]. rewrite !loop_body_pairs.
  rewrite (mean_permutation _ _
             (Permutation_map
                (fun p => (- (snd p - (b0 + b1 * fst p)))%float) H)).
  rewrite (mean_permutation _ _
             (Permutation_map
                (fun p => (- (snd p - (b0 + b1 * fst p)) * fst p)%float) H)).
  reflexivity.
Qed.

Lemma loop_body_order_irrelevant_witness :
  Permutation [(Num 0, Num 6); (Num 1, Num 8)] [(Num 1, Num 8); (Num 0, Num 6)]
  /\
  loop_body (Num (1 / 10)) [Num 0; Num 1] [Num 6; Num 8] (Num 4, Num 4)
  = loop_body (Num (1 / 10)) [Num 1; Num 0] [Num 8; Num 6] (Num 4, Num 4).
Proof.
  split; [apply perm_swap|].
  apply (loop_body_order_irrelevant (Num (1 / 10))
           [(Num 0, Num 6); (Num 1, Num 8)] [(Num 1, Num 8); (Num 0, Num 6)]
           (Num 4, Num 4)).
  apply perm_swap.
Defined.

(** ** A single input or a single output *)

Lemma broadcast_single_l op (x : float64) (b : ndarray) :
  broadcast op [x] b = Ok (map (fun y => op x y) b).
Proof. destruct b as [|y [|y' b]]; reflexivity. Qed.

Lemma broadcast_single_r op (a : ndarray) (y : float64) :
  broadcast op a [y] = Ok (map (fun x => op x y) a).
Proof. destruct a as [|x [|x' a]]; reflexivity. Qed.

Lemma zip_with_repeat_l op (x : float64) (b : ndarray) :
  zip_with op (repeat x (length b)) b = map (fun y => op x y) b.
Proof.
  induction b as [|y b IH]; simpl; [reflexivity|]. rewrite IH. reflexivity.
Qed.

Lemma zip_with_repeat_r op (a : ndarray) (y : float64) :
  zip_with op a (repeat y (length a)) = map (fun x => op x y) a.
Proof.
  induction a as [|x a IH]; simpl; [reflexivity|]. rewrite IH. reflexivity.
Qed.

Lemma broadcast_repeat_l op (x : float64) (b : ndarray) :
  broadcast op (repeat x (length b)) b = Ok (map (fun y => op x y) b).
Proof.
  rewrite broadcast_equal_lengths by apply repeat_length.
  rewrite zip_with_repeat_l. reflexivity.
Qed.

Lemma broadcast_repeat_r op (a : ndarray) (y : float64) :
  broadcast op a (repeat y (length a)) = Ok (map (fun x => op x y) a).
Proof.
  rewrite broadcast_equal_lengths by (symmetry; apply repeat_length).
  rewrite zip_with_repeat_r. reflexivity.
Qed.

(** X8.  A single input with any number of outputs, or a single output with
    any number of inputs, is not a shape error: the iteration is the one on
    the data in which the single value is repeated for every observation. *)
Theorem single_value_is_repeated lr (x y : float64) (xs ys : ndarray)
  (beta : float64 * float64) :
  loop_body lr [x] ys beta = loop_body lr (repeat x (length ys)) ys beta /\
  loop_body lr xs [y] beta = loop_body lr xs (repeat y (length xs)) beta.
Proof.
  destruct beta as [b0 b1]. unfold loop_body, array_sub, array_mul. split.
  - unfold scalar_add, scalar_mul. rewrite !map_repeat. cbn [map].
    rewrite broadcast_single_r, broadcast_repeat_r. cbn [rbind].
    rewrite broadcast_single_r.
    replace (length ys)
      with (length (array_neg (map (fun v => fsub v (fadd b0 (fmul b1 x))) ys)))
      by (unfold array_neg; rewrite !length_map; reflexivity).
    rewrite broadcast_repeat_r. reflexivity.
  - rewrite broadcast_single_l.
    replace (length xs) with (length (scalar_add b0 (scalar_mul b1 xs)))
      by (unfold scalar_add, scalar_mul; rewrite !length_map; reflexivity).
    rewrite broadcast_repeat_l. reflexivity.
Qed.

(** ** Centred inputs and divergence *)

Section Centred.

Local Open Scope R_scope.

Variable obs : list (R * R).
Hypothesis distinct : two_distinct (inputs obs).
Hypothesis centred : mean_R (inputs obs) = 0.

(** With inputs of mean zero the two coefficients evolve apart from each
    other, each at its own geometric rate. *)
Lemma centred_closed_form (lr : R) (k : nat) (b0 b1 : R) :
  iterate k
    (loop_body (Num lr) (reals (inputs obs)) (reals (outputs obs)))
    (Num b0, Num b1)
  = Ok (Num (ols_intercept obs + (1 - lr) ^ k * (b0 - ols_intercept obs)),
        Num (ols_slope obs
             + (1 - lr * mean_R (squares (inputs obs))) ^ k
               * (b1 - ols_slope obs))).
Proof.
  pose proof (distinct_nonempty obs distinct) as Hne.
  revert b0 b1. induction k as [|k IH]; intros b0 b1.
  - cbn [iterate pow].
    apply (f_equal Ok). apply f_equal2; apply (f_equal Num); ring.
  - cbn [iterate]. rewrite loop_body_observations by exact Hne. cbn [rbind].
    rewrite IH.
    destruct (slopes_from_ols obs distinct b0 b1) as [-> ->].
    rewrite centred. rewrite <- !tech_pow_Rmult.
    apply (f_equal Ok). apply f_equal2; apply (f_equal Num); ring.
Qed.

End Centred.

(** X9.  Nothing guards the loop against divergence.  In exact arithmetic
    (the model has no overflow, where the running code ends in [inf] and then
    [nan]), on real observations with two distinct inputs of mean zero, the
    intercept's distance to the least-squares intercept is multiplied by
    [1 - lr] at each iteration and the slope's distance to the least-squares
    slope by [1 - lr * (mean of the squared inputs)]; when
    [lr * (mean of the squared inputs) > 2] and the slope does not start at
    the least-squares slope, that distance exceeds every bound from some
    iteration count on. *)
Theorem centred_descent_diverges (obs : list (R * R)) (lr b0 b1 : R) :
  two_distinct (inputs obs) ->
  mean_R (inputs obs) = 0%R ->
  (forall k : nat,
      iterate k
        (loop_body (Num lr) (reals (inputs obs)) (reals (outputs obs)))
        (Num b0, Num b1)
      = Ok (Num (ols_intercept obs
                 + (1 - lr) ^ k * (b0 - ols_intercept obs)),
            Num (ols_slope obs
                 + (1 - lr * mean_R (squares (inputs obs))) ^ k
                   * (b1 - ols_slope obs)))%R) /\
  ((lr * mean_R (squares (inputs obs)) > 2)%R -> b1 <> ols_slope obs ->
   forall bound : R,
   exists N : nat, forall k : nat, (N <= k)%nat ->
   exists c0 c1 : R,
     iterate k
       (loop_body (Num lr) (reals (inputs obs)) (reals (outputs obs)))
       (Num b0, Num b1) = Ok (Num c0, Num c1) /\
     (Rabs (c1 - ols_slope obs) >= bound)%R).
Proof.
  intros Hd Hc. split.
  - intros k. apply centred_closed_form; assumption.
  - intros Hbig Hstart bound.
    set (q := (1 - lr * mean_R (squares (inputs obs)))%R).
    assert (Hq : (Rabs q > 1)%R).
    { subst q. rewrite Rabs_left by lra. lra. }
    assert (Hd1 : (0 < Rabs (b1 - ols_slope obs))%R).
    { apply Rabs_pos_lt. lra. }
    destruct (Pow_x_infinity q Hq (bound / Rabs (b1 - ols_slope obs))%R)
      as [N HN].
    exists N. intros k Hk. eexists. eexists.
    split; [apply centred_closed_form; assumption|].
    fold q.
    replace (ols_slope obs + q ^ k * (b1 - ols_slope obs) - ols_slope obs)%R
      with (q ^ k * (b1 - ols_slope obs))%R by ring.
    rewrite Rabs_mult.
    specialize (HN k Hk).
    apply Rle_ge.
    replace bound
      with (bound / Rabs (b1 - ols_slope obs) * Rabs (b1 - ols_slope obs))%R
      by (field; lra).
    apply Rmult_le_compat_r; lra.
Qed.

Lemma centred_descent_diverges_witness :
  two_distinct (inputs centred_observations) /\
  mean_R (inputs centred_observations) = 0%R /\
  (1 / 10 * mean_R (squares (inputs centred_observations)) > 2)%R /\
  4%R <> ols_slope centred_observations /\
  exists N : nat, forall k : nat, (N <= k)%nat ->
  exists c0 c1 : R,
    iterate k
      (loop_body (Num (1 / 10)) (reals (inputs centred_observations))
         (reals (outputs centred_observations)))
      (Num 4, Num 4) = Ok (Num c0, Num c1) /\
    (Rabs (c1 - ols_slope centred_observations) >= 1000)%R.
Proof.
  assert (H1 : two_distinct (inputs centred_observations)).
  { exists (-5)%R, 5%R. simpl. repeat split; [tauto | tauto | lra]. }
  assert (H2 : mean_R (inputs centred_observations) = 0%R).
  { unfold mean_R, sum_R. simpl. lra. }
  assert (H3 : (1 / 10 * mean_R (squares (inputs centred_observations)) > 2)%R).
  { unfold mean_R, squares, sum_R. simpl. lra. }
  assert (H4 : 4%R <> ols_slope centred_observations).
  { unfold ols_slope, variance, mean_xy, mean_R, squares, sum_R. simpl. lra. }
  split; [exact H1|]. split; [exact H2|]. split; [exact H3|].
  split; [exact H4|].
  destruct (centred_descent_diverges centred_observations (1 / 10) 4 4 H1 H2)
    as [_ H].
  exact (H H3 H4 1000%R).
Defined.

(** ** What the call prints, on noisy data *)

(** X10.  In exact arithmetic, when the arrays of a call hold real
    observations whose inputs take two distinct values and whose squared
    inputs have a mean of at most 19, the call returns [None] and the final
    coefficients it prints are real numbers whose squared distance to the
    least-squares line is at most [contraction (1 / 10) xs ^ 5000] times that
    of the initial draw.  (The running code rounds, and stalls at a rounding
    error from the line.) *)
Theorem call_prints_near_least_squares (xs ys : ref) (w : World)
  (obs : list (R * R)) :
  contents xs w = reals (inputs obs) ->
  contents ys w = reals (outputs obs) ->
  two_distinct (inputs obs) ->
  (mean_R (squares (inputs obs)) <= 19)%R ->
  exists c0 c1 : R,
    learn_w_gradient_descent xs ys w =
      (Ok PyNone,
       mkWorld (advance 2 (random_state w))
         (stdout w ++ initial_lines w ++ final_lines (Num c0, Num c1))
         (heap w)) /\
    (distance2 c0 c1 (ols_intercept obs) (ols_slope obs)
     <= contraction (1 / 10) (inputs obs) ^ num_iterations
        * distance2 (IZR (fst (initial_draw w))) (IZR (snd (initial_draw w)))
            (ols_intercept obs) (ols_slope obs))%R /\
    (0 <= contraction (1 / 10) (inputs obs) < 1)%R.
Proof.
  intros Hx Hy Hd Hm.
  assert (Hlr : (0 < 1 / 10)%R) by lra.
  assert (Hsmall : (1 / 10 * (1 + mean_R (squares (inputs obs))) <= 2)%R)
    by lra.
  destruct (descent_contracts_observations obs Hd (1 / 10)%R Hlr Hsmall
              num_iterations (IZR (fst (initial_draw w)))
              (IZR (snd (initial_draw w))))
    as (c0 & c1 & Hrun & Hbound).
  exists c0, c1. split; [|split].
  - rewrite learn_w_gradient_descent_run.
    unfold loop_outcome, learning_rate_of_trainer. rewrite Hx, Hy.
    unfold initial_coefficients, to_float. rewrite Hrun. reflexivity.
  - exact Hbound.
  - apply contraction_range; assumption.
Qed.

Lemma call_prints_near_least_squares_witness :
  contents 0 sample_world = reals (inputs sample_observations) /\
  contents 1 sample_world = reals (outputs sample_observations) /\
  two_distinct (inputs sample_observations) /\
  (mean_R (squares (inputs sample_observations)) <= 19)%R /\
  exists c0 c1 : R,
    learn_w_gradient_descent 0 1 sample_world =
      (Ok PyNone,
       mkWorld (advance 2 (random_state sample_world))
         (stdout sample_world ++ initial_lines sample_world
          ++ final_lines (Num c0, Num c1))
         (heap sample_world)) /\
    (distance2 c0 c1 (ols_intercept sample_observations)
       (ols_slope sample_observations)
     <= contraction (1 / 10) (inputs sample_observations) ^ num_iterations
        * distance2 (IZR (fst (initial_draw sample_world)))
            (IZR (snd (initial_draw sample_world)))
            (ols_intercept sample_observations)
            (ols_slope sample_observations))%R /\
    (0 <= contraction (1 / 10) (inputs sample_observations) < 1)%R.
Proof.
  assert (H1 : contents 0 sample_world = reals (inputs sample_observations))
    by reflexivity.
  assert (H2 : contents 1 sample_world = reals (outputs sample_observations))
    by reflexivity.
  assert (H3 : two_distinct (inputs sample_observations)).
  { exists 0%R, 1%R. simpl. repeat split; [tauto | tauto | lra]. }
  assert (H4 : (mean_R (squares (inputs sample_observations)) <= 19)%R).
  { unfold mean_R, squares, sum_R. simpl. lra. }
  split; [exact H1|]. split; [exact H2|]. split; [exact H3|].
  split; [exact H4|].
  exact (call_prints_near_least_squares 0 1 sample_world
           sample_observations H1 H2 H3 H4).
Defined.
